(** * concurrently-ui: the LogViewer of [src/index.ts]

    A shallow embedding of the [LogViewer] class: its fields, the widgets
    it writes to, its private methods and the callbacks it registers on the
    pseudo-terminals, the spinner timers and the screen.  Node's event loop
    runs one callback at a time, so a run of the program is a list of
    events, each handled to completion by [dispatch]. *)

From Stdlib Require Import ZArith Permutation.
From stdpp Require Import base list strings pretty.

(** ** Data *)

(** [pty.IPty]: the handle [pty.spawn] returns.  The development needs to
    tell handles apart, nothing more. *)
Record IPty := { pid : nat }.

(** [interface Task].  [process] and [exitCode] are optional fields. *)
Record Task := {
  id : string;
  title : string;
  command : string;
  isRunning : bool;
  logs : list string;
  process : option IPty;
  exitCode : option Z
}.

(** [interface LogViewerOptions]. *)
Record LogViewerOptions := {
  commands : list string;
  killOthers : bool;
  killOthersOnFail : bool
}.

(** One [setInterval] of [startTasks], with what its closure captures:
    the task's [index], the local [let spinnerIndex], and whether
    [clearInterval] was called on it. *)
Record Interval := {
  owner : nat;
  spinnerIndex : nat;
  cleared : bool
}.

(** The fields of [class LogViewer].  The two widgets are kept by what
    the class writes into them: the content of every sidebar item and the
    content of the log box. *)
Record LogViewer := {
  sidebar : list string;
  logBox : string;
  tasks : list Task;
  currentTaskIndex : Z;
  options : LogViewerOptions;
  spinnerIntervals : list Interval;
  mouseEnabled : bool
}.

(** What a callback does to the outside world, in order. *)
Inductive Effect :=
| SetContent (content : string)          (* logBox.setContent *)
| Render                                 (* screen.render *)
| SetItem (index : nat) (content : string) (* sidebar.getItem(index).content = *)
| PtyWrite (p : IPty) (data : string)    (* p.write *)
| Kill (p : IPty)                        (* task.process.kill() *)
| ClearInterval (k : nat)                (* clearInterval(spinnerIntervals[k]) *)
| EnableMouse
| DisableMouse
| Scroll (offset : Z)                    (* logBox.scroll *)
| ConsoleError (msg : string).

(** How a callback ends: normally, by an uncaught exception, or by
    [process.exit(code)].  The text of an exception only names it. *)
Inductive Completion (A : Type) :=
| Normal (a : A)
| Throw (e : string)
| ProcessExit (code : Z).
Arguments Normal {A} a.
Arguments Throw {A} e.
Arguments ProcessExit {A} code.

(** ** Field updates *)

Definition set_isRunning (b : bool) (t : Task) : Task :=
  {| id := id t; title := title t; command := command t; isRunning := b;
     logs := logs t; process := process t; exitCode := exitCode t |}.

Definition set_exitCode (c : Z) (t : Task) : Task :=
  {| id := id t; title := title t; command := command t;
     isRunning := isRunning t; logs := logs t; process := process t;
     exitCode := Some c |}.

Definition set_process (p : IPty) (t : Task) : Task :=
  {| id := id t; title := title t; command := command t;
     isRunning := isRunning t; logs := logs t; process := Some p;
     exitCode := exitCode t |}.

(** [task.logs.push(chunk)] *)
Definition push_log (chunk : string) (t : Task) : Task :=
  {| id := id t; title := title t; command := command t;
     isRunning := isRunning t; logs := logs t ++ [chunk];
     process := process t; exitCode := exitCode t |}.

Definition with_sidebar (v : list string) (s : LogViewer) : LogViewer :=
  {| sidebar := v; logBox := logBox s; tasks := tasks s;
     currentTaskIndex := currentTaskIndex s; options := options s;
     spinnerIntervals := spinnerIntervals s; mouseEnabled := mouseEnabled s |}.

Definition with_logBox (v : string) (s : LogViewer) : LogViewer :=
  {| sidebar := sidebar s; logBox := v; tasks := tasks s;
     currentTaskIndex := currentTaskIndex s; options := options s;
     spinnerIntervals := spinnerIntervals s; mouseEnabled := mouseEnabled s |}.

Definition with_tasks (v : list Task) (s : LogViewer) : LogViewer :=
  {| sidebar := sidebar s; logBox := logBox s; tasks := v;
     currentTaskIndex := currentTaskIndex s; options := options s;
     spinnerIntervals := spinnerIntervals s; mouseEnabled := mouseEnabled s |}.

Definition with_currentTaskIndex (v : Z) (s : LogViewer) : LogViewer :=
  {| sidebar := sidebar s; logBox := logBox s; tasks := tasks s;
     currentTaskIndex := v; options := options s;
     spinnerIntervals := spinnerIntervals s; mouseEnabled := mouseEnabled s |}.

Definition with_spinnerIntervals (v : list Interval) (s : LogViewer)
  : LogViewer :=
  {| sidebar := sidebar s; logBox := logBox s; tasks := tasks s;
     currentTaskIndex := currentTaskIndex s; options := options s;
     spinnerIntervals := v; mouseEnabled := mouseEnabled s |}.

Definition with_mouseEnabled (v : bool) (s : LogViewer) : LogViewer :=
  {| sidebar := sidebar s; logBox := logBox s; tasks := tasks s;
     currentTaskIndex := currentTaskIndex s; options := options s;
     spinnerIntervals := spinnerIntervals s; mouseEnabled := v |}.

(** ** The callback monad: state, effect trace, completion *)

Definition M (A : Type) : Type :=
  LogViewer -> Completion A * LogViewer * list Effect.

Definition ret {A} (a : A) : M A := fun s => (Normal a, s, []).

Definition bind {A B} (m : M A) (f : A -> M B) : M B := fun s =>
  match m s with
  | (Normal a, s1, e1) =>
      match f a s1 with (r, s2, e2) => (r, s2, e1 ++ e2) end
  | (Throw e, s1, e1) => (Throw e, s1, e1)
  | (ProcessExit c, s1, e1) => (ProcessExit c, s1, e1)
  end.

Definition get : M LogViewer := fun s => (Normal s, s, []).
Definition modify (f : LogViewer -> LogViewer) : M unit :=
  fun s => (Normal tt, f s, []).
Definition emit (e : Effect) : M unit := fun s => (Normal tt, s, [e]).
Definition throw {A} (e : string) : M A := fun s => (Throw e, s, []).
Definition process_exit {A} (code : Z) : M A :=
  fun s => (ProcessExit code, s, []).

Declare Scope js_scope.
Delimit Scope js_scope with js.
Notation "x <- m ; k" := (bind m (fun x => k))
  (at level 20, m at level 100, k at level 200, only parsing) : js_scope.
Notation "m ;; k" := (bind m (fun _ => k))
  (at level 100, k at level 200, only parsing, right associativity) : js_scope.
Open Scope js_scope.

(** [xs.forEach((x, index) => f(index, x))], indices counted from [from]. *)
Fixpoint forEach_from {A} (from : nat) (f : nat -> A -> M unit) (xs : list A)
  : M unit :=
  match xs with
  | [] => ret tt
  | x :: rest => f from x ;; forEach_from (S from) f rest
  end.
Definition forEach {A} (f : nat -> A -> M unit) (xs : list A) : M unit :=
  forEach_from 0 f xs.

(** Projections of a callback's result. *)
Definition completion {A} (r : Completion A * LogViewer * list Effect) := r.1.1.
Definition state_of {A} (r : Completion A * LogViewer * list Effect) := r.1.2.
Definition effects {A} (r : Completion A * LogViewer * list Effect) := r.2.

(** ** JavaScript and library primitives *)

(** [arr[i]] for a number [i]: [undefined] outside the array. *)
Definition js_index {A} (arr : list A) (i : Z) : option A :=
  if (i <? 0)%Z then None else arr !! Z.to_nat i.

(** [arr.join(sep)] on an array of strings. *)
Fixpoint join (sep : string) (arr : list string) : string :=
  match arr with
  | [] => ""
  | [x] => x
  | x :: rest => x +:+ sep +:+ join sep rest
  end.

(** Template interpolation of an integer. *)
Definition show_Z (z : Z) : string := pretty z.
Definition show_nat (n : nat) : string := pretty n.

Definition newline : string := String (Ascii.ascii_of_nat 10) "".
Definition carriage_return : string := String (Ascii.ascii_of_nat 13) "".
Definition esc : string := String (Ascii.ascii_of_nat 27) "".

(** The host the program runs on: whether picocolors found colour
    support, and which calls of [pty.spawn] fail (they throw). *)
Record Host := {
  isColorSupported : bool;
  spawnFails : nat -> bool
}.

Definition spinnerFrames : list string :=
  ["⠋"; "⠙"; "⠹"; "⠸"; "⠼"; "⠴"; "⠦"; "⠧"; "⠇"; "⠏"].

(** ** The class *)

Section Program.
Context (host : Host).

(** picocolors: [pc.yellow], [pc.green].  With colour support the input
    is wrapped in the open and close codes; the inputs of this program
    contain no close code, so nothing is replaced inside them. *)
Definition pc_yellow (input : string) : string :=
  if isColorSupported host
  then esc +:+ "[33m" +:+ input +:+ esc +:+ "[39m" else input.
Definition pc_green (input : string) : string :=
  if isColorSupported host
  then esc +:+ "[32m" +:+ input +:+ esc +:+ "[39m" else input.

(** [pty.spawn(shell, [], ...)]: throws on failure ([None]), otherwise
    the handle of the [k]-th spawned shell. *)
Definition pty_spawn (k : nat) : option IPty :=
  if spawnFails host k then None else Some {| pid := k |}.

Definition logBox_setContent (content : string) : M unit :=
  modify (with_logBox content) ;; emit (SetContent content).

Definition screen_render : M unit := emit Render.

(** [const item = this.sidebar.getItem(index); item.content = content]:
    [getItem] is [undefined] outside the list and the assignment throws. *)
Definition sidebar_setItemContent (index : nat) (content : string) : M unit :=
  s <- get;
  if decide (index < length (sidebar s))
  then modify (fun s => with_sidebar (<[index := content]> (sidebar s)) s) ;;
       emit (SetItem index content)
  else throw "TypeError: Cannot set properties of undefined".

Definition getTaskLabel (task : Task) : string :=
  if isRunning task then "⟳ " +:+ title task
  else if decide (exitCode task = Some 0%Z)
       then pc_green "✓" +:+ " " +:+ title task
       else "✗ " +:+ title task.

Definition updateLogBox : M unit :=
  s <- get;
  match js_index (tasks s) (currentTaskIndex s) with
  | Some task => logBox_setContent (join newline (logs task)) ;; screen_render
  | None => throw "TypeError: Cannot read properties of undefined"
  end.

Definition handleTaskSelect (index : Z) : M unit :=
  modify (with_currentTaskIndex index) ;;
  updateLogBox.

Definition killAllTasks : M unit :=
  s <- get;
  forEach (fun _ task =>
    match isRunning task, process task with
    | true, Some p => emit (Kill p)
    | _, _ => ret tt
    end) (tasks s).

Definition clear_interval (iv : Interval) : Interval :=
  {| owner := owner iv; spinnerIndex := spinnerIndex iv; cleared := true |}.

Definition cleanup : M unit :=
  s <- get;
  forEach (fun k _ =>
    modify (fun s => with_spinnerIntervals
                       (alter clear_interval k (spinnerIntervals s)) s) ;;
    emit (ClearInterval k)) (spinnerIntervals s) ;;
  killAllTasks.

(** The marker [onExit] pushes:
    [`\n${pc.yellow(`Process exited with code ${exitCode}`)}`]. *)
Definition exit_marker (exitCode : Z) : string :=
  newline +:+ pc_yellow ("Process exited with code " +:+ show_Z exitCode).

(** The callback given to [p.onData] for the task at [index]. *)
Definition onData (index : nat) (data : string) : M unit :=
  modify (fun s => with_tasks (alter (push_log data) index (tasks s)) s) ;;
  s <- get;
  if decide (currentTaskIndex s = Z.of_nat index) then updateLogBox
  else ret tt.

(** The condition under which [onExit] calls [killAllTasks]. *)
Definition kill_policy (opts : LogViewerOptions) (exitCode : Z) : bool :=
  (killOthers opts && (exitCode =? 0)%Z)
  || (killOthersOnFail opts && negb (exitCode =? 0)%Z).

(** What [onExit] does to its task before anything else. *)
Definition mark_exited (exitCode : Z) (task : Task) : Task :=
  push_log (exit_marker exitCode)
    (set_exitCode exitCode (set_isRunning false task)).

(** The callback given to [p.onExit] for the task at [index]. *)
Definition onExit (index : nat) (exitCode : Z) : M unit :=
  modify (fun s =>
    with_tasks (alter (mark_exited exitCode) index (tasks s)) s) ;;
  s <- get;
  (if decide (currentTaskIndex s = Z.of_nat index) then updateLogBox
   else ret tt) ;;
  match tasks s !! index with
  | Some task =>
      sidebar_setItemContent index (getTaskLabel task) ;;
      screen_render ;;
      if kill_policy (options s) exitCode then killAllTasks else ret tt
  | None => ret tt
  end.

Definition advance_spinner (iv : Interval) : Interval :=
  {| owner := owner iv;
     spinnerIndex := (spinnerIndex iv + 1) `mod` length spinnerFrames;
     cleared := cleared iv |}.

(** [`${spinnerFrames[spinnerIndex]} ${task.title}`] *)
Definition spinner_label (frame : nat) (task : Task) : string :=
  default "undefined" (spinnerFrames !! frame) +:+ " " +:+ title task.

(** The callback of the [k]-th [setInterval]. *)
Definition spinnerTick (k : nat) : M unit :=
  s <- get;
  match spinnerIntervals s !! k with
  | Some iv =>
      match tasks s !! owner iv with
      | Some task =>
          if isRunning task then
            sidebar_setItemContent (owner iv)
              (spinner_label (spinnerIndex iv) task) ;;
            screen_render ;;
            modify (fun s => with_spinnerIntervals
                       (alter advance_spinner k (spinnerIntervals s)) s)
          else ret tt
      | None => ret tt
      end
  | None => ret tt
  end.

(** The body of the [forEach] of [startTasks] for the task at [index]. *)
Definition startTask (index : nat) : M unit :=
  s <- get;
  match tasks s !! index with
  | Some task =>
      if isRunning task then
        match pty_spawn index with
        | Some p =>
            modify (fun s =>
              with_tasks (alter (set_process p) index (tasks s)) s) ;;
            emit (PtyWrite p (command task +:+ carriage_return)) ;;
            modify (fun s => with_spinnerIntervals
              (spinnerIntervals s ++
                 [{| owner := index; spinnerIndex := 0; cleared := false |}]) s)
        | None => throw "Error: spawn failed"
        end
      else ret tt
  | None => ret tt
  end.

Definition startTasks : M unit :=
  s <- get;
  forEach (fun index _ => startTask index) (tasks s).

Definition initializeUI : M unit :=
  modify (fun s => with_sidebar (getTaskLabel <$> tasks s) s) ;;
  updateLogBox ;;
  screen_render.

(** The object the constructor builds before it calls [initializeUI]. *)
Definition new_task (index : nat) (command : string) : Task :=
  {| id := "task-" +:+ show_nat index; title := command; command := command;
     isRunning := true; logs := []; process := None; exitCode := None |}.

Definition fresh (opts : LogViewerOptions) : LogViewer :=
  {| sidebar := []; logBox := ""; tasks := imap new_task (commands opts);
     currentTaskIndex := 0; options := opts; spinnerIntervals := [];
     mouseEnabled := true |}.

(** [new LogViewer(options)] *)
Definition new_LogViewer (opts : LogViewerOptions)
  : Completion unit * LogViewer * list Effect :=
  (initializeUI ;; startTasks) (fresh opts).

(** ** The event loop *)

(** What the event loop can deliver after construction.  [SidebarSelect]
    stands for the sidebar's [select] event and for the up and down keys:
    both call [handleTaskSelect] with the index the list widget reports. *)
Inductive Event :=
| PtyData (index : nat) (data : string)
| PtyExit (index : nat) (exitCode : Z)
| TimerTick (k : nat)
| SidebarSelect (index : Z)
| Resize
| KeyS
| WheelDown
| WheelUp
| Quit.

Definition toggleMouse : M unit :=
  modify (fun s => with_mouseEnabled (negb (mouseEnabled s)) s) ;;
  s <- get;
  emit (if mouseEnabled s then EnableMouse else DisableMouse) ;;
  screen_render.

(** The [wheeldown] and [wheelup] listeners of this file.  What the box
    widget does with the wheel by itself is the toolkit's and is not part
    of this callback. *)
Definition wheel (offset : Z) : M unit :=
  s <- get;
  if mouseEnabled s
  then emit EnableMouse ;; emit (Scroll offset) ;; screen_render
  else ret tt.

(** A pty callback exists for the tasks [startTasks] gave a process, a
    timer fires until it is cleared. *)
Definition dispatch (ev : Event) : M unit :=
  s <- get;
  match ev with
  | PtyData index data =>
      match tasks s !! index ≫= process with
      | Some _ => onData index data
      | None => ret tt
      end
  | PtyExit index exitCode =>
      match tasks s !! index ≫= process with
      | Some _ => onExit index exitCode
      | None => ret tt
      end
  | TimerTick k =>
      match spinnerIntervals s !! k with
      | Some iv => if cleared iv then ret tt else spinnerTick k
      | None => ret tt
      end
  | SidebarSelect index => handleTaskSelect index
  | Resize => updateLogBox
  | KeyS => toggleMouse
  | WheelDown => wheel 1
  | WheelUp => wheel (-1)
  | Quit => cleanup ;; process_exit 0
  end.

(** The events are handled one at a time; an uncaught exception or
    [process.exit] ends the program and the remaining events are lost. *)
Fixpoint run (evs : list Event) : M unit :=
  match evs with
  | [] => ret tt
  | ev :: rest => dispatch ev ;; run rest
  end.

End Program.

(** ** What the event loop leaves behind *)

(** The handles [killAllTasks] signals on a task array. *)
Definition kill_targets (ts : list Task) : list IPty :=
  omap (fun t => if isRunning t then process t else None) ts.

(** The handles signalled in a trace, in order. *)
Definition kills (es : list Effect) : list IPty :=
  omap (fun e => match e with Kill p => Some p | _ => None end) es.

(** The task array after an event, whatever else the callback does. *)
Definition tasks_after (host : Host) (ev : Event) (ts : list Task)
  : list Task :=
  match ev with
  | PtyData index data => alter (push_log data) index ts
  | PtyExit index exitCode => alter (mark_exited host exitCode) index ts
  | _ => ts
  end.

(** The handle [startTasks] gives the task at index [j]. *)
Definition handle_of (j : nat) : IPty := {| pid := j |}.

(** Every task has the handle [startTasks] gave it. *)
Definition started (s : LogViewer) : Prop :=
  forall j t, tasks s !! j = Some t -> process t = Some (handle_of j).

(** The chunks the handle of task [i] delivers in a list of events. *)
Definition chunks_of (i : nat) (evs : list Event) : list string :=
  omap (fun ev =>
    match ev with
    | PtyData j data => if decide (j = i) then Some data else None
    | _ => None
    end) evs.

(** What the callbacks of task [i] push on its log: the chunks, and the
    marker of every exit event. *)
Definition log_entries (host : Host) (i : nat) (evs : list Event)
  : list string :=
  omap (fun ev =>
    match ev with
    | PtyData j data => if decide (j = i) then Some data else None
    | PtyExit j c => if decide (j = i) then Some (exit_marker host c) else None
    | _ => None
    end) evs.

(** The events the handle of task [i] delivers. *)
Definition is_event_of (i : nat) (ev : Event) : Prop :=
  match ev with
  | PtyData j _ | PtyExit j _ => j = i
  | _ => False
  end.

(** The indices of the tasks other than [i] that are running. *)
Definition running_others (i : nat) (ts : list Task) : list nat :=
  filter (fun j => j <> i /\ isRunning <$> ts !! j = Some true)
    (seq 0 (length ts)).

(** Exit events, given as pairs of a task index and an exit code. *)
Definition exit_events (xs : list (nat * Z)) : list Event :=
  (fun x => PtyExit x.1 x.2) <$> xs.

(** The interval [startTask] sets for the task at [index]. *)
Definition new_interval (index : nat) : Interval :=
  {| owner := index; spinnerIndex := 0; cleared := false |}.

(** The first of the [n] spawns from the [k]-th on that fails, [k + n]
    when none does. *)
Fixpoint first_failure (host : Host) (k n : nat) : nat :=
  match n with
  | 0 => k
  | S n' => if spawnFails host k then k else first_failure host (S k) n'
  end.

(** A viewer whose constructor returned: every task has its handle, the
    sidebar has one item per task, the selection is a valid index, and
    every timer belongs to a task. *)
Definition ready (s : LogViewer) : Prop :=
  started s
  /\ length (sidebar s) = length (tasks s)
  /\ (0 <= currentTaskIndex s < Z.of_nat (length (tasks s)))%Z
  /\ Forall (fun o => o < length (tasks s)) (owner <$> spinnerIntervals s).

(** Events that neither end the program nor select a missing task. *)
Definition deliverable (s : LogViewer) (ev : Event) : Prop :=
  match ev with
  | SidebarSelect z => (0 <= z < Z.of_nat (length (tasks s)))%Z
  | Quit => False
  | _ => True
  end.

(** The task array after all the events of a list. *)
Definition tasks_after_all (host : Host) (evs : list Event) (ts : list Task)
  : list Task :=
  foldl (fun ts ev => tasks_after host ev ts) ts evs.

(** The state [onExit] leaves when nothing throws. *)
Definition exit_state (host : Host) (index : nat) (c : Z) (s : LogViewer)
  : LogViewer :=
  let ts := alter (mark_exited host c) index (tasks s) in
  with_sidebar
    (<[index := default "" (getTaskLabel host <$> ts !! index)]> (sidebar s))
    (with_logBox
       (if decide (currentTaskIndex s = Z.of_nat index)
        then default "" (join newline ∘ logs <$> ts !! index) else logBox s)
       (with_tasks ts s)).

(** The state after the exit events [xs], handled in this order. *)
Definition exit_state_all (host : Host) (xs : list (nat * Z)) (s : LogViewer)
  : LogViewer :=
  foldl (fun s x => exit_state host x.1 x.2 s) s xs.

(** A callback that leaves a field of the viewer as it is. *)
Definition keeps {X A} (field : LogViewer -> X) (m : M A) : Prop :=
  forall s, field (state_of (m s)) = field s.

(** ** The program entry and the state after one event *)

(** The top level of the file, after [cli.parse()]: with no command it
    reports an error and exits with status 1, otherwise it constructs the
    viewer.  No viewer exists in the first case. *)
Definition main (host : Host) (args : list string)
    (killOthers killOthersOnFail : bool)
  : Completion unit * option LogViewer * list Effect :=
  match args with
  | [] =>
      (ProcessExit 1, None,
       [ConsoleError "Error: At least one command is required"])
  | _ =>
      let r := new_LogViewer host
                 {| commands := args; killOthers := killOthers;
                    killOthersOnFail := killOthersOnFail |} in
      (completion r, Some (state_of r), effects r)
  end.

(** The state a constructed viewer is in after a deliverable event. *)
Definition step_state (host : Host) (ev : Event) (s : LogViewer) : LogViewer :=
  match ev with
  | PtyData index data =>
      match tasks s !! index with
      | Some t =>
          let s1 := with_tasks (alter (push_log data) index (tasks s)) s in
          if decide (currentTaskIndex s = Z.of_nat index)
          then with_logBox (join newline (logs t ++ [data])) s1 else s1
      | None => s
      end
  | PtyExit index c =>
      match tasks s !! index with
      | Some _ => exit_state host index c s
      | None => s
      end
  | TimerTick k =>
      match spinnerIntervals s !! k with
      | Some iv =>
          match tasks s !! owner iv with
          | Some t =>
              if negb (cleared iv) && isRunning t
              then with_spinnerIntervals
                     (alter advance_spinner k (spinnerIntervals s))
                     (with_sidebar
                        (<[owner iv := spinner_label (spinnerIndex iv) t]>
                           (sidebar s)) s)
              else s
          | None => s
          end
      | None => s
      end
  | SidebarSelect z =>
      match js_index (tasks s) z with
      | Some t => with_logBox (join newline (logs t)) (with_currentTaskIndex z s)
      | None => with_currentTaskIndex z s
      end
  | Resize =>
      match js_index (tasks s) (currentTaskIndex s) with
      | Some t => with_logBox (join newline (logs t)) s
      | None => s
      end
  | KeyS => with_mouseEnabled (negb (mouseEnabled s)) s
  | WheelDown | WheelUp => s
  | Quit =>
      with_spinnerIntervals (clear_interval <$> spinnerIntervals s) s
  end.

(** The log box holds the joined log of the selected task. *)
Definition in_sync (s : LogViewer) : Prop :=
  exists t, js_index (tasks s) (currentTaskIndex s) = Some t
    /\ logBox s = join newline (logs t).

(** Every task that has exited has its final label in the sidebar. *)
Definition exited_labelled (host : Host) (s : LogViewer) : Prop :=
  forall i t, tasks s !! i = Some t -> isRunning t = false ->
    sidebar s !! i = Some (getTaskLabel host t).

(** Every running task has, in the sidebar, its title after the idle
    glyph or after one of the spinner frames. *)
Definition running_labelled (s : LogViewer) : Prop :=
  forall i t, tasks s !! i = Some t -> isRunning t = true ->
    exists glyph, glyph ∈ "⟳" :: spinnerFrames
      /\ sidebar s !! i = Some (glyph +:+ " " +:+ title t).

(** Every spinner index points into [spinnerFrames]. *)
Definition frames_in_range (s : LogViewer) : Prop :=
  Forall (fun iv => spinnerIndex iv < length spinnerFrames)
    (spinnerIntervals s).

(** The selection after the events [evs], starting from [z]: the index of
    the last selection event, [z] when there is none. *)
Definition selection_after (evs : list Event) (z : Z) : Z :=
  foldl (fun z ev => match ev with SidebarSelect z' => z' | _ => z end) z evs.

(** The fields of a task that are set once and for all. *)
Definition static_fields (t : Task) : string * string * string * option IPty :=
  (id t, title t, command t, process t).

(** ** Concrete inputs *)

(** A host with colour support on which every spawn succeeds. *)
Definition good_host : Host :=
  {| isColorSupported := true; spawnFails := fun _ => false |}.

(** Three commands, with the two kill flags as given. *)
Definition opts3 (k kf : bool) : LogViewerOptions :=
  {| commands := ["a"; "b"; "c"]; killOthers := k; killOthersOnFail := kf |}.

(** Three commands on a host where every spawn succeeds. *)
Definition viewer3 (k kf : bool) : LogViewer :=
  state_of (new_LogViewer good_host (opts3 k kf)).

(** A host on which the second spawn fails. *)
Definition flaky_host : Host :=
  {| isColorSupported := true; spawnFails := fun k => Nat.eqb k 1 |}.

(** What the spec calls the verbatim concatenation of the chunks. *)
Definition verbatim_concatenation (chunks : list string) : string :=
  foldr String.append "" chunks.

(** The task [startTasks] makes of the command at [index]. *)
Definition started_task (index : nat) (command : string) : Task :=
  set_process (handle_of index) (new_task index command).

(** * Proofs *)

Ltac unfold_m :=
  unfold bind, ret, get, modify, emit, throw, process_exit,
    completion, state_of, effects in *.

Section Facts.
Context (host : Host).

(** *** The monad *)

Lemma state_of_bind {A B} (m : M A) (f : A -> M B) (s : LogViewer) :
  state_of (bind m f s) =
    match completion (m s) with
    | Normal a => state_of (f a (state_of (m s)))
    | _ => state_of (m s)
    end.
Proof.
  unfold bind, state_of, completion.
  destruct (m s) as [[[a|e|c] s1] e1]; cbn; [|done..].
  by destruct (f a s1) as [[r s2] e2].
Qed.

Lemma effects_bind {A B} (m : M A) (f : A -> M B) (s : LogViewer) :
  effects (bind m f s) =
    effects (m s) ++
    match completion (m s) with
    | Normal a => effects (f a (state_of (m s)))
    | _ => []
    end.
Proof.
  unfold bind, state_of, completion, effects.
  destruct (m s) as [[[a|e|c] s1] e1]; cbn; rewrite ?app_nil_r; [|done..].
  by destruct (f a s1) as [[r s2] e2].
Qed.

Lemma completion_bind {A B} (m : M A) (f : A -> M B) (s : LogViewer) :
  completion (bind m f s) =
    match completion (m s) with
    | Normal a => completion (f a (state_of (m s)))
    | Throw e => Throw e
    | ProcessExit c => ProcessExit c
    end.
Proof.
  unfold bind, state_of, completion.
  destruct (m s) as [[[a|e|c] s1] e1]; cbn; [|done..].
  by destruct (f a s1) as [[r s2] e2].
Qed.

Lemma bind_get {B} (f : LogViewer -> M B) (s : LogViewer) :
  bind get f s = f s s.
Proof. unfold bind, get. by destruct (f s s) as [[r s2] e2]. Qed.

Lemma bind_modify {B} (g : LogViewer -> LogViewer) (f : unit -> M B)
    (s : LogViewer) :
  bind (modify g) f s = f tt (g s).
Proof. unfold bind, modify. by destruct (f tt (g s)) as [[r s2] e2]. Qed.

(** *** The loops of [killAllTasks] and [cleanup] *)

Lemma forEach_kill_spec (ts : list Task) (k : nat) (s : LogViewer) :
  forEach_from k (fun _ task =>
    match isRunning task, process task with
    | true, Some p => emit (Kill p)
    | _, _ => ret tt
    end) ts s = (Normal tt, s, Kill <$> kill_targets ts).
Proof.
  revert k. induction ts as [|t ts IH]; intros k; [reflexivity|].
  cbn [forEach_from]. unfold bind at 1.
  destruct (isRunning t) eqn:Er, (process t) eqn:Ep; unfold emit, ret;
    rewrite IH; unfold kill_targets; cbn; rewrite Er, ?Ep; reflexivity.
Qed.

Lemma killAllTasks_spec (s : LogViewer) :
  killAllTasks s = (Normal tt, s, Kill <$> kill_targets (tasks s)).
Proof.
  unfold killAllTasks, forEach, bind at 1, get.
  rewrite forEach_kill_spec. reflexivity.
Qed.

Lemma kills_Kill (ps : list IPty) : kills (Kill <$> ps) = ps.
Proof.
  induction ps as [|p ps IH]; [reflexivity|].
  unfold kills in *. cbn. by rewrite IH.
Qed.

Lemma kills_app (e1 e2 : list Effect) : kills (e1 ++ e2) = kills e1 ++ kills e2.
Proof. apply omap_app. Qed.

Lemma updateLogBox_spec (s : LogViewer) (task : Task) :
  js_index (tasks s) (currentTaskIndex s) = Some task ->
  updateLogBox s =
    (Normal tt, with_logBox (join newline (logs task)) s,
     [SetContent (join newline (logs task)); Render]).
Proof.
  intros H. unfold updateLogBox, bind at 1, get. rewrite H.
  reflexivity.
Qed.

Lemma updateLogBox_throws (s : LogViewer) :
  js_index (tasks s) (currentTaskIndex s) = None ->
  updateLogBox s =
    (Throw "TypeError: Cannot read properties of undefined", s, []).
Proof.
  intros H. unfold updateLogBox, bind at 1, get. rewrite H.
  reflexivity.
Qed.

(** *** Callbacks that leave a field alone *)

Section Keeps.
Context {X : Type} (field : LogViewer -> X).

Lemma keeps_ret {A} (a : A) : keeps field (ret a).
Proof. done. Qed.
Lemma keeps_get : keeps field get.
Proof. done. Qed.
Lemma keeps_emit (e : Effect) : keeps field (emit e).
Proof. done. Qed.
Lemma keeps_throw {A} (e : string) : keeps field (@throw A e).
Proof. done. Qed.
Lemma keeps_process_exit {A} (c : Z) : keeps field (@process_exit A c).
Proof. done. Qed.
Lemma keeps_modify (f : LogViewer -> LogViewer) :
  (forall s, field (f s) = field s) -> keeps field (modify f).
Proof. intros H s. apply H. Qed.
Lemma keeps_bind {A B} (m : M A) (f : A -> M B) :
  keeps field m -> (forall a, keeps field (f a)) -> keeps field (bind m f).
Proof.
  intros Hm Hf s. rewrite state_of_bind.
  destruct (completion (m s)); rewrite ?Hf; apply Hm.
Qed.
Lemma keeps_forEach_from {A} (f : nat -> A -> M unit) (xs : list A) (k : nat) :
  (forall k x, keeps field (f k x)) -> keeps field (forEach_from k f xs).
Proof.
  intros Hf. revert k. induction xs as [|x xs IH]; intros k; cbn.
  - apply keeps_ret.
  - apply keeps_bind; auto.
Qed.

End Keeps.

Ltac keeps_step :=
  first
    [ apply keeps_ret | apply keeps_get | apply keeps_emit | apply keeps_throw
    | apply keeps_process_exit
    | apply keeps_modify; intros; reflexivity
    | apply keeps_bind; [|intros ?]
    | apply keeps_forEach_from; intros ? ?
    | assumption
    | case_match | case_decide ].

Lemma updateLogBox_keeps {X} (field : LogViewer -> X) :
  (forall v s, field (with_logBox v s) = field s) ->
  keeps field updateLogBox.
Proof.
  intros H. unfold updateLogBox, logBox_setContent, screen_render.
  repeat first [apply keeps_modify; intros; apply H | keeps_step].
Qed.

Lemma sidebar_setItemContent_keeps {X} (field : LogViewer -> X) i c :
  (forall v s, field (with_sidebar v s) = field s) ->
  keeps field (sidebar_setItemContent i c).
Proof.
  intros H. unfold sidebar_setItemContent.
  repeat first [apply keeps_modify; intros; apply H | keeps_step].
Qed.

Lemma killAllTasks_keeps {X} (field : LogViewer -> X) :
  keeps field killAllTasks.
Proof. intros s. by rewrite killAllTasks_spec. Qed.

Lemma state_of_bind_keeps {X A B} (field : LogViewer -> X)
    (m : M A) (f : A -> M B) (s : LogViewer) :
  (forall a, keeps field (f a)) ->
  field (state_of (bind m f s)) = field (state_of (m s)).
Proof.
  intros Hf. rewrite state_of_bind.
  destruct (completion (m s)); by rewrite ?Hf.
Qed.

Ltac handler_keeps :=
  unfold screen_render, logBox_setContent;
  repeat first [ apply updateLogBox_keeps; done
               | apply killAllTasks_keeps
               | apply sidebar_setItemContent_keeps; done
               | keeps_step ].

Ltac as_keeps :=
  match goal with
  | |- ?f (state_of (?m ?s)) = ?f ?s =>
      cut (keeps f m); [intros Hk; apply Hk|]; handler_keeps
  end.

Lemma onExit_tasks (index : nat) (c : Z) (s : LogViewer) :
  tasks (state_of (onExit host index c s))
  = alter (mark_exited host c) index (tasks s).
Proof.
  unfold onExit. rewrite state_of_bind_keeps; [done|].
  intros _. handler_keeps.
Qed.

Lemma sidebar_setItemContent_spec (index : nat) (c : string) (s : LogViewer) :
  index < length (sidebar s) ->
  sidebar_setItemContent index c s =
    (Normal tt, with_sidebar (<[index := c]> (sidebar s)) s, [SetItem index c]).
Proof.
  intros H. unfold sidebar_setItemContent. unfold_m. by case_decide.
Qed.

Lemma with_spinnerIntervals_id (s : LogViewer) :
  with_spinnerIntervals (spinnerIntervals s) s = s.
Proof. by destruct s. Qed.

Lemma forEach_clear_spec (xs pre : list Interval) (s : LogViewer) :
  spinnerIntervals s = pre ++ xs ->
  forEach_from (length pre) (fun k _ =>
    modify (fun s => with_spinnerIntervals
                       (alter clear_interval k (spinnerIntervals s)) s) ;;
    emit (ClearInterval k)) xs s
  = (Normal tt, with_spinnerIntervals (pre ++ (clear_interval <$> xs)) s,
     ClearInterval <$> seq (length pre) (length xs)).
Proof.
  revert pre s. induction xs as [|x xs IH]; intros pre s Hs.
  - cbn. rewrite <- Hs, with_spinnerIntervals_id. reflexivity.
  - cbn [forEach_from]. unfold bind at 1. unfold bind at 1, modify, emit.
    specialize (IH (pre ++ [clear_interval x])).
    rewrite length_app, Nat.add_1_r in IH. rewrite IH.
    + cbn. rewrite <- (assoc_L (++)). reflexivity.
    + cbn. rewrite Hs, alter_app_r_alt, Nat.sub_diag by lia.
      cbn. by rewrite <- (assoc_L (++)).
Qed.

Lemma cleanup_spec (s : LogViewer) :
  cleanup s =
    (Normal tt,
     with_spinnerIntervals (clear_interval <$> spinnerIntervals s) s,
     (ClearInterval <$> seq 0 (length (spinnerIntervals s)))
       ++ (Kill <$> kill_targets (tasks s))).
Proof.
  unfold cleanup, forEach. unfold bind at 1, get. unfold bind at 1.
  pose proof (forEach_clear_spec (spinnerIntervals s) [] s eq_refl) as H.
  cbn [length app] in H. rewrite H, killAllTasks_spec. reflexivity.
Qed.

Lemma onData_tasks (index : nat) (data : string) (s : LogViewer) :
  tasks (state_of (onData index data s))
  = alter (push_log data) index (tasks s).
Proof.
  unfold onData. rewrite state_of_bind_keeps; [done|].
  intros _. handler_keeps.
Qed.

Lemma cleanup_keeps {X} (field : LogViewer -> X) :
  (forall v s, field (with_spinnerIntervals v s) = field s) ->
  keeps field cleanup.
Proof. intros H s. rewrite cleanup_spec. apply H. Qed.

Lemma list_alter_absent {A} (f : A -> A) (l : list A) (i : nat) :
  l !! i = None -> alter f i l = l.
Proof.
  intros H. apply list_eq. intros j. rewrite list_lookup_alter.
  case_decide; [subst; by rewrite H|done].
Qed.

Lemma callback_absent (s : LogViewer) (index : nat) :
  started s -> tasks s !! index ≫= process = None -> tasks s !! index = None.
Proof.
  intros Hs H. destruct (tasks s !! index) as [t|] eqn:E; [|done].
  cbn in H. by rewrite (Hs _ _ E) in H.
Qed.

Lemma dispatch_tasks (ev : Event) (s : LogViewer) :
  started s ->
  tasks (state_of (dispatch host ev s)) = tasks_after host ev (tasks s).
Proof.
  intros Hs. unfold dispatch. rewrite state_of_bind. cbn [completion get fst].
  change (state_of (get s)) with s.
  destruct ev; cbn [tasks_after].
  - destruct (tasks s !! index ≫= process) eqn:E.
    + apply onData_tasks.
    + by rewrite list_alter_absent by by apply callback_absent.
  - destruct (tasks s !! index ≫= process) eqn:E.
    + apply onExit_tasks.
    + by rewrite list_alter_absent by by apply callback_absent.
  - destruct (spinnerIntervals s !! k) as [iv|]; [|done].
    destruct (cleared iv); [done|]. unfold spinnerTick. as_keeps.
  - unfold handleTaskSelect. as_keeps.
  - unfold updateLogBox. as_keeps.
  - unfold toggleMouse. as_keeps.
  - unfold wheel. as_keeps.
  - unfold wheel. as_keeps.
  - match goal with |- ?f (state_of (?m ?s)) = ?f ?s =>
      cut (keeps f m); [intros Hk; apply Hk|] end.
    apply keeps_bind; [by apply cleanup_keeps|].
    intros. apply keeps_process_exit.
Qed.

Lemma tasks_after_length (ev : Event) (ts : list Task) :
  length (tasks_after host ev ts) = length ts.
Proof. destruct ev; cbn; by rewrite ?length_alter. Qed.

Lemma tasks_after_process (ev : Event) (ts : list Task) (j : nat) :
  process <$> tasks_after host ev ts !! j = process <$> ts !! j.
Proof.
  destruct ev; cbn; try done; rewrite list_lookup_alter; case_decide; subst;
    try done; by destruct (ts !! j).
Qed.

Lemma dispatch_started (ev : Event) (s : LogViewer) :
  started s -> started (state_of (dispatch host ev s)).
Proof.
  intros Hs j t Ht. rewrite dispatch_tasks in Ht by done.
  pose proof (tasks_after_process ev (tasks s) j) as H. rewrite Ht in H.
  destruct (tasks s !! j) as [t0|] eqn:E; [|done].
  cbn in H. injection H as ->. eauto.
Qed.

Lemma run_cons_state (ev : Event) (evs : list Event) (s : LogViewer) :
  state_of (run host (ev :: evs) s) =
    match completion (dispatch host ev s) with
    | Normal _ => state_of (run host evs (state_of (dispatch host ev s)))
    | _ => state_of (dispatch host ev s)
    end.
Proof. cbn [run]. by rewrite state_of_bind. Qed.

Lemma run_invariant (I : LogViewer -> Prop) :
  (forall ev s, I s -> I (state_of (dispatch host ev s))) ->
  forall evs s, I s -> I (state_of (run host evs s)).
Proof.
  intros Hstep evs. induction evs as [|ev evs IH]; intros s Hs; [done|].
  rewrite run_cons_state. destruct (completion _); auto.
Qed.

(** *** What each callback returns *)

Lemma js_index_of_nat {A} (l : list A) (i : nat) :
  js_index l (Z.of_nat i) = l !! i.
Proof.
  unfold js_index. destruct (Z.ltb_spec (Z.of_nat i) 0); [lia|].
  by rewrite Nat2Z.id.
Qed.

Lemma js_index_Some {A} (l : list A) (z : Z) :
  is_Some (js_index l z) <-> (0 <= z < Z.of_nat (length l))%Z.
Proof.
  unfold js_index. destruct (Z.ltb_spec z 0).
  - split; [intros [? ?]; done|lia].
  - rewrite lookup_lt_is_Some. lia.
Qed.

Lemma onData_selected (index : nat) (data : string) (s : LogViewer) (t : Task) :
  tasks s !! index = Some t ->
  currentTaskIndex s = Z.of_nat index ->
  onData index data s =
    (Normal tt,
     with_logBox (join newline (logs t ++ [data]))
       (with_tasks (alter (push_log data) index (tasks s)) s),
     [SetContent (join newline (logs t ++ [data])); Render]).
Proof.
  intros Ht Hc. unfold onData. unfold bind at 1, modify.
  unfold bind at 1, get. cbn [currentTaskIndex with_tasks].
  rewrite decide_True by done.
  rewrite (updateLogBox_spec _ (push_log data t)); [reflexivity|].
  cbn. by rewrite Hc, js_index_of_nat, list_lookup_alter_eq, Ht.
Qed.

Lemma onData_unselected (index : nat) (data : string) (s : LogViewer) :
  currentTaskIndex s <> Z.of_nat index ->
  onData index data s =
    (Normal tt, with_tasks (alter (push_log data) index (tasks s)) s, []).
Proof.
  intros Hc. unfold onData. unfold bind at 1, modify.
  unfold bind at 1, get. cbn [currentTaskIndex with_tasks].
  by rewrite decide_False by done.
Qed.


Lemma onExit_spec (index : nat) (c : Z) (s : LogViewer) (t : Task) :
  tasks s !! index = Some t ->
  index < length (sidebar s) ->
  let t' := mark_exited host c t in
  let ts := alter (mark_exited host c) index (tasks s) in
  onExit host index c s =
    (Normal tt, exit_state host index c s,
     (if decide (currentTaskIndex s = Z.of_nat index)
      then [SetContent (join newline (logs t')); Render] else [])
     ++ [SetItem index (getTaskLabel host t'); Render]
     ++ (if kill_policy (options s) c then Kill <$> kill_targets ts else [])).
Proof.
  intros Ht Hi. cbv zeta. unfold onExit, exit_state. cbv zeta.
  assert (alter (mark_exited host c) index (tasks s) !! index
          = Some (mark_exited host c t)) as Hts.
  { by rewrite list_lookup_alter_eq, Ht. }
  rewrite Hts. cbn [fmap option_fmap option_map default compose].
  unfold bind at 1, modify. unfold bind at 1, get.
  cbn [currentTaskIndex with_tasks tasks].
  case_decide as Hc.
  - unfold bind at 1. rewrite (updateLogBox_spec _ (mark_exited host c t));
      cycle 1.
    { cbn. by rewrite Hc, js_index_of_nat, Hts. }
    rewrite Hts.
    unfold bind at 1. rewrite sidebar_setItemContent_spec by done.
    unfold bind at 1, screen_render, emit. cbn [options with_sidebar].
    destruct (kill_policy _ _).
    + rewrite killAllTasks_spec. reflexivity.
    + reflexivity.
  - unfold bind at 1, ret. rewrite Hts.
    unfold bind at 1. rewrite sidebar_setItemContent_spec by done.
    unfold bind at 1, screen_render, emit. cbn [options with_sidebar].
    destruct (kill_policy _ _).
    + rewrite killAllTasks_spec. reflexivity.
    + reflexivity.
Qed.

Lemma handleTaskSelect_spec (z : Z) (s : LogViewer) (t : Task) :
  js_index (tasks s) z = Some t ->
  handleTaskSelect z s =
    (Normal tt,
     with_logBox (join newline (logs t)) (with_currentTaskIndex z s),
     [SetContent (join newline (logs t)); Render]).
Proof.
  intros Hz. unfold handleTaskSelect. unfold bind at 1, modify.
  by rewrite (updateLogBox_spec _ t).
Qed.

Lemma handleTaskSelect_throws (z : Z) (s : LogViewer) :
  js_index (tasks s) z = None ->
  handleTaskSelect z s =
    (Throw "TypeError: Cannot read properties of undefined",
     with_currentTaskIndex z s, []).
Proof.
  intros Hz. unfold handleTaskSelect. unfold bind at 1, modify.
  by rewrite updateLogBox_throws.
Qed.

Lemma spinnerTick_running (k : nat) (s : LogViewer) (iv : Interval) (t : Task) :
  spinnerIntervals s !! k = Some iv ->
  tasks s !! owner iv = Some t ->
  isRunning t = true ->
  owner iv < length (sidebar s) ->
  spinnerTick k s =
    (Normal tt,
     with_spinnerIntervals (alter advance_spinner k (spinnerIntervals s))
       (with_sidebar
          (<[owner iv := spinner_label (spinnerIndex iv) t]> (sidebar s)) s),
     [SetItem (owner iv) (spinner_label (spinnerIndex iv) t); Render]).
Proof.
  intros Hk Ht Hr Ho. unfold spinnerTick. unfold bind at 1, get.
  rewrite Hk, Ht, Hr. unfold bind at 1.
  rewrite sidebar_setItemContent_spec by done.
  reflexivity.
Qed.

Lemma spinnerTick_exited (k : nat) (s : LogViewer) (iv : Interval) (t : Task) :
  spinnerIntervals s !! k = Some iv ->
  tasks s !! owner iv = Some t ->
  isRunning t = false ->
  spinnerTick k s = (Normal tt, s, []).
Proof.
  intros Hk Ht Hr. unfold spinnerTick. unfold bind at 1, get.
  by rewrite Hk, Ht, Hr.
Qed.

(** *** Fields no callback changes, and the invariant [ready] *)

Ltac unfold_handlers :=
  unfold dispatch, onData, onExit, spinnerTick, handleTaskSelect,
    updateLogBox, toggleMouse, wheel, cleanup, killAllTasks, forEach,
    sidebar_setItemContent, logBox_setContent, screen_render.

Ltac keeps_by tac :=
  repeat first
    [ apply keeps_ret | apply keeps_get | apply keeps_emit | apply keeps_throw
    | apply keeps_process_exit
    | apply keeps_modify; intros; tac
    | apply keeps_bind; [|intros ?]
    | apply keeps_forEach_from; intros ? ?
    | case_match | case_decide ].

Lemma dispatch_options (ev : Event) : keeps options (dispatch host ev).
Proof. unfold_handlers. keeps_by ltac:(reflexivity). Qed.

Lemma dispatch_sidebar_length (ev : Event) :
  keeps (fun s => length (sidebar s)) (dispatch host ev).
Proof.
  unfold_handlers. keeps_by ltac:(cbn; rewrite ?length_insert; reflexivity).
Qed.

Lemma owner_alter (f : Interval -> Interval) (k : nat) (l : list Interval) :
  (forall iv, owner (f iv) = owner iv) ->
  owner <$> alter f k l = owner <$> l.
Proof.
  intros Hf.
  rewrite (list_fmap_alter owner f (fun o => o))
    by (apply Forall_forall; intros; apply Hf).
  by apply list_alter_id.
Qed.

Lemma dispatch_owners (ev : Event) :
  keeps (fun s => owner <$> spinnerIntervals s) (dispatch host ev).
Proof.
  unfold_handlers.
  keeps_by ltac:(cbn; rewrite ?owner_alter by done; reflexivity).
Qed.

Lemma dispatch_currentTaskIndex (ev : Event) :
  (forall z, ev <> SidebarSelect z) ->
  keeps currentTaskIndex (dispatch host ev).
Proof.
  intros Hev. destruct ev; try (by destruct (Hev index));
    unfold_handlers; keeps_by ltac:(reflexivity).
Qed.

Lemma dispatch_ready_state (ev : Event) (s : LogViewer) :
  ready s -> deliverable s ev -> ready (state_of (dispatch host ev s)).
Proof.
  intros (Hst & Hsb & Hcur & Hiv) Hev. unfold ready.
  rewrite (dispatch_sidebar_length ev s), (dispatch_owners ev s).
  rewrite dispatch_tasks, tasks_after_length by done.
  split; [|split; [done|split; [|done]]].
  - by apply dispatch_started.
  - assert ((exists z, ev = SidebarSelect z) \/ forall z, ev <> SidebarSelect z)
      as [[z ->]|Hne] by (destruct ev; eauto).
    + cbn in Hev. unfold dispatch. rewrite bind_get.
      destruct (proj2 (js_index_Some (tasks s) z) Hev) as [t Ht].
      by rewrite (handleTaskSelect_spec _ _ _ Ht).
    + by rewrite dispatch_currentTaskIndex.
Qed.

Lemma callback_present (s : LogViewer) (index : nat) (p : IPty) :
  tasks s !! index ≫= process = Some p ->
  exists t, tasks s !! index = Some t.
Proof. destruct (tasks s !! index); [eauto|done]. Qed.

Lemma dispatch_normal (ev : Event) (s : LogViewer) :
  ready s -> deliverable s ev -> completion (dispatch host ev s) = Normal tt.
Proof.
  intros (Hst & Hsb & Hcur & Hiv) Hev. unfold dispatch. rewrite bind_get.
  destruct ev; try done.
  - destruct (tasks s !! index ≫= process) as [p|] eqn:E; [|done].
    destruct (callback_present _ _ _ E) as [t Ht].
    destruct (decide (currentTaskIndex s = Z.of_nat index)) as [Hc|Hc].
    + by rewrite (onData_selected _ _ _ _ Ht Hc).
    + by rewrite (onData_unselected _ _ _ Hc).
  - destruct (tasks s !! index ≫= process) as [p|] eqn:E; [|done].
    destruct (callback_present _ _ _ E) as [t Ht].
    rewrite (onExit_spec _ _ _ _ Ht); [done|].
    rewrite Hsb. by eapply lookup_lt_Some.
  - destruct (spinnerIntervals s !! k) as [iv|] eqn:E; [|done].
    destruct (cleared iv); [done|].
    assert (owner iv < length (tasks s)) as Ho.
    { rewrite Forall_forall in Hiv. apply Hiv.
      apply list_elem_of_fmap. exists iv. split; [done|].
      by eapply list_elem_of_lookup_2. }
    destruct (lookup_lt_is_Some_2 _ _ Ho) as [t Ht].
    destruct (isRunning t) eqn:Hr.
    + rewrite (spinnerTick_running _ _ _ _ E Ht Hr); [done|]. by rewrite Hsb.
    + by rewrite (spinnerTick_exited _ _ _ _ E Ht Hr).
  - destruct (proj2 (js_index_Some (tasks s) index) Hev) as [t Ht].
    by rewrite (handleTaskSelect_spec _ _ _ Ht).
  - destruct (proj2 (js_index_Some (tasks s) (currentTaskIndex s)) Hcur)
      as [t Ht].
    by rewrite (updateLogBox_spec _ _ Ht).
  - unfold wheel. rewrite bind_get. by destruct (mouseEnabled s).
  - unfold wheel. rewrite bind_get. by destruct (mouseEnabled s).
Qed.

Lemma deliverable_length (s s' : LogViewer) (ev : Event) :
  length (tasks s') = length (tasks s) ->
  deliverable s ev -> deliverable s' ev.
Proof. intros H. destruct ev; cbn; try done. by rewrite H. Qed.


Lemma run_ready (evs : list Event) (s : LogViewer) :
  ready s -> Forall (deliverable s) evs ->
  completion (run host evs s) = Normal tt
  /\ ready (state_of (run host evs s))
  /\ tasks (state_of (run host evs s)) = tasks_after_all host evs (tasks s).
Proof.
  revert s. induction evs as [|ev evs IH]; intros s Hs Hevs; [done|].
  apply Forall_cons in Hevs as [Hev Hevs].
  pose proof (dispatch_normal ev s Hs Hev) as Hn.
  pose proof (dispatch_ready_state ev s Hs Hev) as Hr.
  pose proof (dispatch_tasks ev s (proj1 Hs)) as Ht.
  cbn [run]. rewrite completion_bind, state_of_bind, Hn.
  destruct (IH _ Hr) as (IH1 & IH2 & IH3).
  { eapply Forall_impl; [exact Hevs|]. intros ev'.
    apply deliverable_length. by rewrite Ht, tasks_after_length. }
  split_and!; [done..|]. rewrite IH3, Ht. reflexivity.
Qed.

Lemma run_invariant_on (P : Event -> Prop) (I : LogViewer -> Prop) :
  (forall ev s, P ev -> I s -> I (state_of (dispatch host ev s))) ->
  forall evs s, Forall P evs -> I s -> I (state_of (run host evs s)).
Proof.
  intros Hstep evs. induction evs as [|ev evs IH]; intros s Hevs Hs; [done|].
  apply Forall_cons in Hevs as [Hev Hevs].
  rewrite run_cons_state. destruct (completion _); auto.
Qed.

Lemma tasks_after_other (ev : Event) (ts : list Task) (i : nat) :
  ~ is_event_of i ev -> tasks_after host ev ts !! i = ts !! i.
Proof.
  destruct ev; cbn; try done; intros H; by rewrite list_lookup_alter_ne.
Qed.

Lemma tasks_after_exited (ev : Event) (ts : list Task) (i : nat) (t : Task) :
  ts !! i = Some t -> isRunning t = false ->
  exists t', tasks_after host ev ts !! i = Some t' /\ isRunning t' = false.
Proof.
  intros Ht Hr.
  destruct ev; cbn; eauto; rewrite list_lookup_alter; case_decide; subst;
    rewrite ?Ht; cbn; eauto.
Qed.

Lemma log_entries_no_exit (i : nat) (evs : list Event) :
  (forall c, PtyExit i c ∉ evs) -> log_entries host i evs = chunks_of i evs.
Proof.
  induction evs as [|ev evs IH]; intros H; [done|].
  unfold log_entries, chunks_of in *. cbn.
  rewrite IH by (intros c Hc; apply (H c); by right).
  destruct ev; try done. case_decide; [subst|done].
  destruct (H exitCode0). by left.
Qed.

Lemma tasks_after_all_logs (i : nat) (evs : list Event) (ts : list Task)
    (t : Task) :
  ts !! i = Some t ->
  exists t', tasks_after_all host evs ts !! i = Some t'
    /\ logs t' = logs t ++ log_entries host i evs.
Proof.
  revert ts t. induction evs as [|ev evs IH]; intros ts t Ht.
  - exists t. by rewrite app_nil_r.
  - cbn [tasks_after_all foldl]. fold (tasks_after_all host evs).
    assert (exists t1, tasks_after host ev ts !! i = Some t1 /\
      logs t1 = logs t ++ log_entries host i [ev]) as (t1 & Ht1 & Hl1).
    { destruct ev; cbn; try (exists t; by rewrite app_nil_r).
      - rewrite list_lookup_alter. case_decide; subst.
        + rewrite Ht. by eexists.
        + exists t. by rewrite app_nil_r.
      - rewrite list_lookup_alter. case_decide; subst.
        + rewrite Ht. by eexists.
        + exists t. by rewrite app_nil_r. }
    destruct (IH _ _ Ht1) as (t' & Ht' & Hl').
    exists t'. split; [done|]. rewrite Hl', Hl1, <- (assoc_L (++)).
    f_equal. unfold log_entries. cbn. by destruct (_ : option string).
Qed.

(** C7: the chunks a task's handle delivers are pushed on its log one by
    one, in the order of delivery.  From a constructed viewer every
    deliverable event is handled, and afterwards the log of task [i] is
    its former log followed by exactly what its callbacks pushed, in
    order: the chunks (and the marker of an exit event); while no exit
    event of the task is among the events, that is the list of delivered
    chunks itself, none missing, repeated or moved. *)
Theorem chunks_logged_in_order (s : LogViewer) (evs : list Event)
    (i : nat) (t : Task) :
  ready s ->
  Forall (deliverable s) evs ->
  tasks s !! i = Some t ->
  completion (run host evs s) = Normal tt
  /\ exists t', tasks (state_of (run host evs s)) !! i = Some t'
       /\ logs t' = logs t ++ log_entries host i evs
       /\ ((forall c, PtyExit i c ∉ evs) ->
           logs t' = logs t ++ chunks_of i evs).
Proof.
  intros Hs Hevs Ht.
  destruct (run_ready evs s Hs Hevs) as (Hn & _ & Hts).
  split; [done|]. rewrite Hts.
  destruct (tasks_after_all_logs i evs _ _ Ht) as (t' & Ht' & Hl).
  exists t'. split_and!; [done..|].
  intros Hne. by rewrite Hl, log_entries_no_exit.
Qed.

Lemma string_app_nil_r (x : string) : x +:+ "" = x.
Proof.
  induction x as [|a x IH]; [done|].
  change (String a (x +:+ "") = String a x). by rewrite IH.
Qed.

Lemma exit_marker_text (c : Z) :
  exists pre post,
    exit_marker host c
    = pre +:+ ("Process exited with code " +:+ show_Z c) +:+ post.
Proof.
  unfold exit_marker, pc_yellow. destruct (isColorSupported host).
  - exists (newline +:+ esc +:+ "[33m"), (esc +:+ "[39m").
    reflexivity.
  - exists newline, "". by rewrite string_app_nil_r.
Qed.

(** C6, amended: an exit event with code [c] leaves the task not running,
    with exit code [c] and with one more log entry, the marker, which
    contains "Process exited with code c".  No later event makes the
    task running again.  Its log and exit code then stay as they are
    under every event that is not a further data or exit event of that
    same task; the data and exit callbacks themselves do not look at
    [isRunning]. *)
Theorem exit_is_one_way (s : LogViewer) (i : nat) (c : Z) (t : Task) :
  started s ->
  tasks s !! i = Some t ->
  (exists t', tasks (state_of (dispatch host (PtyExit i c) s)) !! i = Some t'
     /\ isRunning t' = false
     /\ exitCode t' = Some c
     /\ logs t' = logs t ++ [exit_marker host c]
     /\ exists pre post,
          exit_marker host c
          = pre +:+ ("Process exited with code " +:+ show_Z c) +:+ post)
  /\ (isRunning t = false ->
      forall evs,
      exists t', tasks (state_of (run host evs s)) !! i = Some t'
        /\ isRunning t' = false
        /\ (Forall (fun ev => ~ is_event_of i ev) evs ->
            logs t' = logs t /\ exitCode t' = exitCode t)).
Proof.
  intros Hs Ht. split.
  - rewrite dispatch_tasks by done. cbn [tasks_after].
    rewrite list_lookup_alter_eq, Ht. eexists. split; [done|].
    split_and!; try done. apply exit_marker_text.
  - intros Hr evs.
    assert (exists t', tasks (state_of (run host evs s)) !! i = Some t'
              /\ isRunning t' = false) as (t' & Ht' & Hr').
    { apply (run_invariant (fun s' => started s' /\
        exists t', tasks s' !! i = Some t' /\ isRunning t' = false));
        [|by eauto].
      intros ev s' (Hs' & t1 & Ht1 & Hr1). split; [by apply dispatch_started|].
      rewrite dispatch_tasks by done. by eapply tasks_after_exited. }
    exists t'. split_and!; [done..|]. intros Hevs.
    assert (started (state_of (run host evs s))
            /\ tasks (state_of (run host evs s)) !! i = Some t) as [_ Heq].
    { apply (run_invariant_on (fun ev => ~ is_event_of i ev)
        (fun s' => started s' /\ tasks s' !! i = Some t)); [|done..].
      intros ev s' Hev (Hs' & Ht1). split; [by apply dispatch_started|].
      rewrite dispatch_tasks by done. by rewrite tasks_after_other. }
    rewrite Ht' in Heq. by injection Heq as ->.
Qed.

Lemma sidebar_setItemContent_throws (index : nat) (c : string) (s : LogViewer) :
  ~ index < length (sidebar s) ->
  sidebar_setItemContent index c s =
    (Throw "TypeError: Cannot set properties of undefined", s, []).
Proof.
  intros H. unfold sidebar_setItemContent. unfold_m. by case_decide.
Qed.

Lemma spinnerTick_intervals (k : nat) (s : LogViewer) :
  spinnerIntervals (state_of (spinnerTick k s)) = spinnerIntervals s
  \/ spinnerIntervals (state_of (spinnerTick k s))
     = alter advance_spinner k (spinnerIntervals s).
Proof.
  unfold spinnerTick. rewrite bind_get.
  destruct (spinnerIntervals s !! k) as [iv|]; [|by left].
  destruct (tasks s !! owner iv) as [t|]; [|by left].
  destruct (isRunning t); [|by left].
  destruct (decide (owner iv < length (sidebar s))) as [Ho|Ho].
  - right. unfold bind at 1. by rewrite sidebar_setItemContent_spec.
  - left. unfold bind at 1. by rewrite sidebar_setItemContent_throws.
Qed.

Lemma dispatch_spinnerIntervals (ev : Event) :
  (forall k, ev <> TimerTick k) -> ev <> Quit ->
  keeps spinnerIntervals (dispatch host ev).
Proof.
  intros Hk Hq. destruct ev; try done; try (by destruct (Hk k));
    unfold_handlers; keeps_by ltac:(reflexivity).
Qed.

Lemma dispatch_interval_frozen (ev : Event) (s : LogViewer) (k : nat)
    (iv : Interval) (t : Task) :
  spinnerIntervals s !! k = Some iv ->
  tasks s !! owner iv = Some t ->
  isRunning t = false ->
  exists iv', spinnerIntervals (state_of (dispatch host ev s)) !! k = Some iv'
    /\ spinnerIndex iv' = spinnerIndex iv /\ owner iv' = owner iv.
Proof.
  intros Hk Ht Hr.
  assert ((exists k', ev = TimerTick k') \/ ev = Quit
          \/ ((forall k', ev <> TimerTick k') /\ ev <> Quit))
    as [[k' ->]|[->|[H1 H2]]] by (destruct ev; eauto).
  - unfold dispatch. rewrite bind_get.
    destruct (spinnerIntervals s !! k') as [iv'|] eqn:Hk'; [|by eauto].
    destruct (cleared iv'); [by eauto|].
    destruct (decide (k' = k)) as [->|Hne].
    + rewrite Hk in Hk'. injection Hk' as <-.
      rewrite (spinnerTick_exited _ _ _ _ Hk Ht Hr). eauto.
    + destruct (spinnerTick_intervals k' s) as [-> | ->]; [by eauto|].
      rewrite list_lookup_alter_ne by done. eauto.
  - unfold dispatch. rewrite bind_get. unfold bind at 1.
    rewrite cleanup_spec. cbn. rewrite list_lookup_fmap, Hk. cbn. eauto.
  - rewrite dispatch_spinnerIntervals by done. eauto.
Qed.

(** C8: a tick of the spinner timer of a running task moves its frame
    index to the next of the ten frames, cyclically; a tick for a task
    that has exited changes nothing at all, and from then on the frame
    index stays where it is whatever events follow. *)
Theorem spinner_advances_while_running (s : LogViewer) (k : nat)
    (iv : Interval) (t : Task) :
  spinnerIntervals s !! k = Some iv ->
  cleared iv = false ->
  tasks s !! owner iv = Some t ->
  owner iv < length (sidebar s) ->
  length spinnerFrames = 10
  /\ (isRunning t = true ->
      spinnerIntervals (state_of (dispatch host (TimerTick k) s)) !! k
      = Some {| owner := owner iv;
                spinnerIndex := (spinnerIndex iv + 1) `mod` 10;
                cleared := false |})
  /\ (isRunning t = false ->
      dispatch host (TimerTick k) s = (Normal tt, s, [])
      /\ (started s -> forall evs,
          exists iv',
            spinnerIntervals (state_of (run host evs s)) !! k = Some iv'
            /\ spinnerIndex iv' = spinnerIndex iv
            /\ owner iv' = owner iv)).
Proof.
  intros Hk Hc Ht Ho. split; [done|]. split.
  - intros Hr. unfold dispatch. rewrite bind_get, Hk, Hc.
    rewrite (spinnerTick_running _ _ _ _ Hk Ht Hr Ho). cbn.
    rewrite list_lookup_alter_eq, Hk. cbn. unfold advance_spinner.
    by rewrite Hc.
  - intros Hr. split.
    + unfold dispatch. rewrite bind_get, Hk, Hc.
      by rewrite (spinnerTick_exited _ _ _ _ Hk Ht Hr).
    + intros Hs evs.
      pose (I := fun s' : LogViewer => started s'
        /\ (exists t', tasks s' !! owner iv = Some t' /\ isRunning t' = false)
        /\ exists iv', spinnerIntervals s' !! k = Some iv'
             /\ spinnerIndex iv' = spinnerIndex iv /\ owner iv' = owner iv).
      assert (I (state_of (run host evs s))) as (_ & _ & H); [|done].
      apply run_invariant; [|by unfold I; eauto 10].
      intros ev s' (Hs' & (t' & Ht' & Hr') & (iv' & Hk' & Hi' & Ho')).
      split; [by apply dispatch_started|]. split.
      * rewrite dispatch_tasks by done. by eapply tasks_after_exited.
      * rewrite <- Ho' in Ht'.
        destruct (dispatch_interval_frozen ev s' k iv' t' Hk' Ht' Hr')
          as (iv'' & ? & ? & ?).
        exists iv''. split_and!; [done|congruence..].
Qed.

(** C5, amended: [handleTaskSelect] stores the index it is given as it
    is, without clamping; the stored selection is a valid task index
    exactly when the given index is one, and in that case the log pane is
    repainted from that task.  For any other index the selection is still
    stored and the repaint that follows throws. *)
Theorem selection_stored_as_given (s : LogViewer) (z : Z) :
  currentTaskIndex (state_of (handleTaskSelect z s)) = z
  /\ tasks (state_of (handleTaskSelect z s)) = tasks s
  /\ ((0 <= currentTaskIndex (state_of (handleTaskSelect z s))
          < Z.of_nat (length (tasks s)))%Z
      <-> (0 <= z < Z.of_nat (length (tasks s)))%Z)
  /\ (completion (handleTaskSelect z s) = Normal tt
      <-> (0 <= z < Z.of_nat (length (tasks s)))%Z)
  /\ ((0 <= z < Z.of_nat (length (tasks s)))%Z ->
      exists t, js_index (tasks s) z = Some t
        /\ logBox (state_of (handleTaskSelect z s)) = join newline (logs t)).
Proof.
  cbv zeta. destruct (js_index (tasks s) z) as [t|] eqn:E.
  - assert (0 <= z < Z.of_nat (length (tasks s)))%Z as Hz
      by (apply js_index_Some; eauto).
    rewrite (handleTaskSelect_spec _ _ _ E). cbn. split_and!; eauto.
    done.
  - assert (~ (0 <= z < Z.of_nat (length (tasks s)))%Z) as Hz.
    { rewrite <- js_index_Some, E. by intros [? ?]. }
    rewrite (handleTaskSelect_throws _ _ E). cbn.
    split_and!; done.
Qed.

(** C4, amended: what the log pane shows for a task, when the task is
    selected and when a chunk arrives for the selected task, is the whole
    of the task's log at that moment, read anew: its entries in the order
    they were pushed, each one unaltered, joined with one newline between
    consecutive entries. *)
Theorem log_pane_shows_joined_log (s : LogViewer) (i : nat) (t : Task) :
  tasks s !! i = Some t ->
  (let r := handleTaskSelect (Z.of_nat i) s in
   completion r = Normal tt
   /\ logBox (state_of r) = join newline (logs t)
   /\ effects r = [SetContent (join newline (logs t)); Render])
  /\ (forall data,
      currentTaskIndex s = Z.of_nat i ->
      let r := onData i data s in
      completion r = Normal tt
      /\ tasks (state_of r) !! i = Some (push_log data t)
      /\ logBox (state_of r) = join newline (logs t ++ [data])
      /\ effects r = [SetContent (join newline (logs t ++ [data])); Render])
  /\ (forall data,
      currentTaskIndex s <> Z.of_nat i ->
      let r := onData i data s in
      completion r = Normal tt
      /\ tasks (state_of r) !! i = Some (push_log data t)
      /\ logBox (state_of r) = logBox s
      /\ effects r = []).
Proof.
  intros Ht. split_and!.
  - rewrite (handleTaskSelect_spec _ _ t) by by rewrite js_index_of_nat.
    done.
  - intros data Hc. rewrite (onData_selected _ _ _ _ Ht Hc). cbn.
    by rewrite list_lookup_alter_eq, Ht.
  - intros data Hc. rewrite (onData_unselected _ _ _ Hc). cbn.
    by rewrite list_lookup_alter_eq, Ht.
Qed.

Lemma elem_of_kill_targets (ts : list Task) (p : IPty) :
  p ∈ kill_targets ts <->
  exists j t, ts !! j = Some t /\ isRunning t = true /\ process t = Some p.
Proof.
  unfold kill_targets. rewrite list_elem_of_omap. split.
  - intros (t & Hin & Hp). apply list_elem_of_lookup in Hin as [j Hj].
    exists j, t. destruct (isRunning t); by eauto.
  - intros (j & t & Hj & Hr & Hp). exists t. rewrite Hr.
    split; [by eapply list_elem_of_lookup_2|done].
Qed.

(** C9: the quit key first clears every spinner timer, then signals the
    handle of every task that is still running, those and no others, and
    then ends the process with status 0, whatever the exit codes of the
    tasks; nothing that comes after is handled, and a timer tick would
    find its timer cleared. *)
Theorem quit_shuts_down (s : LogViewer) :
  dispatch host Quit s =
    (ProcessExit 0,
     with_spinnerIntervals (clear_interval <$> spinnerIntervals s) s,
     (ClearInterval <$> seq 0 (length (spinnerIntervals s)))
       ++ (Kill <$> kill_targets (tasks s)))
  /\ (forall p, p ∈ kill_targets (tasks s) <->
        exists j t, tasks s !! j = Some t /\ isRunning t = true
                    /\ process t = Some p)
  /\ (forall evs, run host (Quit :: evs) s = dispatch host Quit s)
  /\ (forall k,
      dispatch host (TimerTick k)
        (with_spinnerIntervals (clear_interval <$> spinnerIntervals s) s)
      = (Normal tt,
         with_spinnerIntervals (clear_interval <$> spinnerIntervals s) s, [])).
Proof.
  cbv zeta.
  assert (dispatch host Quit s =
    (ProcessExit 0,
     with_spinnerIntervals (clear_interval <$> spinnerIntervals s) s,
     (ClearInterval <$> seq 0 (length (spinnerIntervals s)))
       ++ (Kill <$> kill_targets (tasks s)))) as Hq.
  { unfold dispatch. rewrite bind_get. unfold bind at 1.
    rewrite cleanup_spec. unfold process_exit. by rewrite app_nil_r. }
  split_and!.
  - done.
  - apply elem_of_kill_targets.
  - intros evs. cbn [run]. unfold bind at 1. by rewrite Hq.
  - intros k. unfold dispatch. rewrite bind_get. cbn.
    rewrite list_lookup_fmap.
    by destruct (spinnerIntervals s !! k).
Qed.

(** *** Whom a broadcast signals *)

Lemma filter_ext_elem {A} (P Q : A -> Prop)
    `{!forall x, Decision (P x)} `{!forall x, Decision (Q x)} (l : list A) :
  (forall x, x ∈ l -> P x <-> Q x) -> filter P l = filter Q l.
Proof.
  induction l as [|x l IH]; intros Hext; [done|].
  rewrite !filter_cons.
  rewrite IH by (intros y Hy; apply Hext; by right).
  pose proof (Hext x (list_elem_of_here _ _)) as Hx.
  repeat case_decide; try done; exfalso; tauto.
Qed.

Lemma kill_targets_seq (ts : list Task) :
  (forall j t, ts !! j = Some t -> process t = Some (handle_of j)) ->
  kill_targets ts =
    handle_of <$>
      filter (fun j => isRunning <$> ts !! j = Some true) (seq 0 (length ts)).
Proof.
  induction ts as [|x ts IH] using rev_ind; intros Hp; [done|].
  unfold kill_targets in *. rewrite omap_app, length_app, seq_app, filter_app.
  rewrite fmap_app. f_equal.
  - rewrite IH.
    + f_equal. apply filter_ext_elem. intros j Hj.
      apply elem_of_seq in Hj. by rewrite lookup_app_l by lia.
    + intros j t Hj. apply Hp. rewrite lookup_app_l; [done|].
      by eapply lookup_lt_Some.
  - cbn. rewrite list_lookup_middle by done. cbn.
    pose proof (Hp (length ts) x (list_lookup_middle _ _ _ _ eq_refl)) as Hx.
    destruct (isRunning x); case_decide; try done. by rewrite Hx.
Qed.

Lemma kill_targets_after_exit (ts : list Task) (i : nat) (c : Z) :
  (forall j t, ts !! j = Some t -> process t = Some (handle_of j)) ->
  kill_targets (alter (mark_exited host c) i ts)
  = handle_of <$> running_others i ts.
Proof.
  intros Hp. rewrite kill_targets_seq.
  - rewrite length_alter. unfold running_others. f_equal.
    apply list_filter_iff. intros j. rewrite list_lookup_alter.
    case_decide; subst.
    + split; [by destruct (ts !! j)|]. by intros [? _].
    + split; [done|]. by intros [_ ?].
  - intros j t. rewrite list_lookup_alter. case_decide; subst.
    + destruct (ts !! j) as [t0|] eqn:E; [|done].
      intros [= <-]. cbn. eauto.
    + apply Hp.
Qed.

Lemma run_cons_effects (ev : Event) (evs : list Event) (s : LogViewer) :
  effects (run host (ev :: evs) s) =
    effects (dispatch host ev s) ++
    match completion (dispatch host ev s) with
    | Normal _ => effects (run host evs (state_of (dispatch host ev s)))
    | _ => []
    end.
Proof. cbn [run]. by rewrite effects_bind. Qed.

Lemma dispatch_no_kills (ev : Event) (s : LogViewer) :
  ready s -> deliverable s ev ->
  (forall i c, ev = PtyExit i c -> kill_policy (options s) c = false) ->
  kills (effects (dispatch host ev s)) = [].
Proof.
  intros (Hst & Hsb & Hcur & Hiv) Hev Hpol. unfold dispatch. rewrite bind_get.
  destruct ev; try done.
  - destruct (tasks s !! index ≫= process) as [p|] eqn:E; [|done].
    destruct (callback_present _ _ _ E) as [t Ht].
    destruct (decide (currentTaskIndex s = Z.of_nat index)) as [Hc|Hc].
    + by rewrite (onData_selected _ _ _ _ Ht Hc).
    + by rewrite (onData_unselected _ _ _ Hc).
  - destruct (tasks s !! index ≫= process) as [p|] eqn:E; [|done].
    destruct (callback_present _ _ _ E) as [t Ht].
    rewrite (onExit_spec _ _ _ _ Ht); cycle 1.
    { rewrite Hsb. by eapply lookup_lt_Some. }
    rewrite (Hpol _ _ eq_refl). cbn. by case_decide.
  - destruct (spinnerIntervals s !! k) as [iv|] eqn:E; [|done].
    destruct (cleared iv); [done|].
    assert (owner iv < length (tasks s)) as Ho.
    { rewrite Forall_forall in Hiv. apply Hiv.
      apply list_elem_of_fmap. exists iv. split; [done|].
      by eapply list_elem_of_lookup_2. }
    destruct (lookup_lt_is_Some_2 _ _ Ho) as [t Ht].
    destruct (isRunning t) eqn:Hr.
    + rewrite (spinnerTick_running _ _ _ _ E Ht Hr); [done|]. by rewrite Hsb.
    + by rewrite (spinnerTick_exited _ _ _ _ E Ht Hr).
  - destruct (proj2 (js_index_Some (tasks s) index) Hev) as [t Ht].
    by rewrite (handleTaskSelect_spec _ _ _ Ht).
  - destruct (proj2 (js_index_Some (tasks s) (currentTaskIndex s)) Hcur)
      as [t Ht].
    by rewrite (updateLogBox_spec _ _ Ht).
  - unfold toggleMouse. rewrite bind_modify, bind_get. cbn.
    by destruct (negb _).
  - unfold wheel. rewrite bind_get. by destruct (mouseEnabled s).
  - unfold wheel. rewrite bind_get. by destruct (mouseEnabled s).
Qed.

Lemma kill_policy_spec (opts : LogViewerOptions) (c : Z) :
  kill_policy opts c = true <->
  (killOthers opts = true /\ c = 0%Z)
  \/ (killOthersOnFail opts = true /\ c <> 0%Z).
Proof.
  unfold kill_policy. destruct (Z.eqb_spec c 0), (killOthers opts),
    (killOthersOnFail opts); cbn; intuition congruence.
Qed.

(** C1: when the exit event of task [i] with code [c] is handled, the
    handles signalled are: if [killOthers] is set and [c = 0], or
    [killOthersOnFail] is set and [c <> 0], the handle of every task other
    than [i] that is running at that moment, each once and no other
    handle; otherwise none.  In particular, when [killOthers] is not set
    and every exit code is 0, no handle is signalled by any event short of
    the quit key. *)
Theorem exit_kill_policy (s : LogViewer) (i : nat) (c : Z) (t : Task) :
  ready s ->
  tasks s !! i = Some t ->
  (kill_policy (options s) c = true <->
     (killOthers (options s) = true /\ c = 0%Z)
     \/ (killOthersOnFail (options s) = true /\ c <> 0%Z))
  /\ kills (effects (dispatch host (PtyExit i c) s))
     = (if kill_policy (options s) c
        then handle_of <$> running_others i (tasks s) else [])
  /\ (forall j, handle_of j ∈ handle_of <$> running_others i (tasks s) <->
        j <> i /\ exists t', tasks s !! j = Some t' /\ isRunning t' = true)
  /\ NoDup (handle_of <$> running_others i (tasks s))
  /\ (kills (effects (dispatch host (PtyExit i c) s)) <> [] <->
      kill_policy (options s) c = true /\ running_others i (tasks s) <> [])
  /\ (killOthers (options s) = false ->
      forall evs,
        Forall (deliverable s) evs ->
        Forall (fun ev => forall j c', ev = PtyExit j c' -> c' = 0%Z) evs ->
        kills (effects (run host evs s)) = []).
Proof.
  intros Hs Ht. split; [apply kill_policy_spec|].
  assert (kills (effects (dispatch host (PtyExit i c) s))
     = (if kill_policy (options s) c
        then handle_of <$> running_others i (tasks s) else [])) as Hkills.
  { destruct Hs as (Hst & Hsb & Hcur & Hiv).
    unfold dispatch. rewrite bind_get.
    rewrite Ht. cbn [mbind option_bind]. rewrite (Hst _ _ Ht).
    rewrite (onExit_spec _ _ _ _ Ht); cycle 1.
    { rewrite Hsb. by eapply lookup_lt_Some. }
    cbn [effects snd]. rewrite !kills_app.
    destruct (kill_policy _ _).
    + rewrite kills_Kill, kill_targets_after_exit by done.
      by case_decide.
    + by case_decide. }
  split; [exact Hkills|]. split; [|split; [|split]].
  - intros j. rewrite list_elem_of_fmap. unfold running_others. split.
    + intros (j' & [= <-] & Hj). apply list_elem_of_filter in Hj as [[? Hr] _].
      split; [done|]. destruct (tasks s !! j) as [t'|]; [|done].
      exists t'. split; [done|]. by injection Hr.
    + intros (Hne & t' & Ht' & Hr). exists j. split; [done|].
      apply list_elem_of_filter. split; [by rewrite Ht', <- Hr|].
      apply elem_of_seq. split; [lia|]. cbn. by eapply lookup_lt_Some.
  - apply NoDup_fmap_2.
    + intros j1 j2 [=]. done.
    + apply NoDup_filter, NoDup_seq.
  - rewrite Hkills. destruct (kill_policy _ _).
    + split.
      * intros Hne. split; [done|]. intros Hnil. apply Hne. by rewrite Hnil.
      * intros [_ Hne] Hnil. apply Hne. by eapply fmap_nil_inv.
    + split; [done|]. by intros [? _].
  - intros Hk evs. clear Ht Hkills. revert s Hs Hk.
    induction evs as [|ev evs IH]; intros s Hs Hk Hd Hz; [done|].
    apply Forall_cons in Hd as [Hd Hds]. apply Forall_cons in Hz as [Hz Hzs].
    rewrite run_cons_effects, kills_app.
    rewrite (dispatch_normal ev s Hs Hd).
    rewrite dispatch_no_kills; [|done..|].
    + change (kills (effects (run host evs (state_of (dispatch host ev s))))
              = []).
      apply IH; [by apply dispatch_ready_state| | |done].
      * by rewrite (dispatch_options ev s).
      * eapply Forall_impl; [exact Hds|]. intros ev'.
        apply deliverable_length.
        by rewrite dispatch_tasks, tasks_after_length by apply Hs.
    + intros j c' ->. rewrite (Hz _ _ eq_refl).
      unfold kill_policy. rewrite Hk. cbn. by rewrite andb_false_r.
Qed.

(** *** Exit events of different tasks commute *)

Lemma list_alter_commute {A} (f g : A -> A) (i j : nat) (l : list A) :
  i <> j -> alter f i (alter g j l) = alter g j (alter f i l).
Proof.
  intros Hij. apply list_eq. intros k. rewrite !list_lookup_alter.
  repeat case_decide; subst; try done.
Qed.

Lemma exit_state_commute (i j : nat) (c d : Z) (s : LogViewer) :
  i <> j ->
  exit_state host i c (exit_state host j d s) = exit_state host j d (exit_state host i c s).
Proof.
  intros Hij. unfold exit_state. cbv zeta.
  cbn [tasks sidebar logBox currentTaskIndex with_sidebar with_logBox
       with_tasks].
  rewrite (list_alter_commute _ _ i j) by done.
  rewrite !list_lookup_alter_eq.
  rewrite (list_lookup_alter_ne _ _ j i) by done.
  rewrite (list_lookup_alter_ne _ _ i j) by done.
  rewrite (list_insert_insert_ne _ i j) by done.
  rewrite ?list_lookup_alter_eq.
  unfold with_sidebar, with_logBox, with_tasks. cbn. f_equal.
  repeat case_decide; try done. lia.
Qed.

Lemma dispatch_exit_state (i : nat) (c : Z) (s : LogViewer) :
  ready s -> i < length (tasks s) ->
  state_of (dispatch host (PtyExit i c) s) = exit_state host i c s.
Proof.
  intros (Hst & Hsb & _) Hi.
  destruct (lookup_lt_is_Some_2 _ _ Hi) as [t Ht].
  unfold dispatch. rewrite bind_get, Ht. cbn [mbind option_bind].
  rewrite (Hst _ _ Ht), (onExit_spec _ _ _ _ Ht); [done|]. by rewrite Hsb.
Qed.


Lemma exit_events_deliverable (xs : list (nat * Z)) (s : LogViewer) :
  Forall (deliverable s) (exit_events xs).
Proof. unfold exit_events. apply Forall_fmap, Forall_forall. by intros. Qed.

Lemma run_exit_events (xs : list (nat * Z)) (s : LogViewer) :
  ready s -> Forall (fun x => x.1 < length (tasks s)) xs ->
  state_of (run host (exit_events xs) s) = exit_state_all host xs s.
Proof.
  revert s. induction xs as [|[i c] xs IH]; intros s Hs Hxs; [done|].
  apply Forall_cons in Hxs as [Hi Hxs]. cbn in Hi.
  change (exit_events ((i, c) :: xs)) with (PtyExit i c :: exit_events xs).
  rewrite run_cons_state, dispatch_normal by done.
  rewrite IH.
  - by rewrite dispatch_exit_state.
  - by apply dispatch_ready_state.
  - eapply Forall_impl; [exact Hxs|]. intros x.
    by rewrite dispatch_tasks, tasks_after_length by apply Hs.
Qed.

Lemma foldl_foldr_rev {A B} (f : A -> B -> A) (a : A) (l : list B) :
  foldl f a l = foldr (fun x a => f a x) a (reverse l).
Proof.
  revert a. induction l as [|x l IH]; intros a; [done|].
  rewrite reverse_cons, foldr_app. cbn. by rewrite IH.
Qed.

Lemma exit_state_all_permutation (xs ys : list (nat * Z)) (s : LogViewer) :
  NoDup xs.*1 -> xs ≡ₚ ys -> exit_state_all host xs s = exit_state_all host ys s.
Proof.
  intros Hnd Hp. unfold exit_state_all. rewrite !foldl_foldr_rev.
  apply (foldr_permutation (=)).
  - by intros x s1 s2 ->.
  - intros j1 [i1 c1] j2 [i2 c2] b Hj H1 H2. cbn.
    apply exit_state_commute. intros ->.
    apply Hj. eapply (NoDup_lookup (reverse xs).*1 _ _ i2).
    + by rewrite fmap_reverse, reverse_Permutation.
    + by rewrite list_lookup_fmap, H1.
    + by rewrite list_lookup_fmap, H2.
  - by rewrite !reverse_Permutation.
Qed.

Lemma dispatch_exit_kills_bound (i : nat) (c : Z) (s : LogViewer) :
  ready s -> i < length (tasks s) ->
  length (kills (effects (dispatch host (PtyExit i c) s)))
  <= length (tasks s) - 1.
Proof.
  intros Hs Hi. pose proof Hs as (Hst & Hsb & _).
  destruct (lookup_lt_is_Some_2 _ _ Hi) as [t Ht].
  unfold dispatch. rewrite bind_get, Ht. cbn [mbind option_bind].
  rewrite (Hst _ _ Ht), (onExit_spec _ _ _ _ Ht) by by rewrite Hsb.
  cbn [effects snd]. rewrite !kills_app.
  assert (kills (if decide (currentTaskIndex s = Z.of_nat i)
     then [SetContent (join newline (logs (mark_exited host c t))); Render]
     else []) = []) as -> by by case_decide.
  change (kills [SetItem i (getTaskLabel host (mark_exited host c t)); Render])
    with (@nil IPty).
  cbn [app].
  destruct (kill_policy _ _); [|cbn; lia].
  rewrite kills_Kill, kill_targets_after_exit, length_fmap by done.
  unfold running_others.
  assert (length (filter (fun j => j <> i /\ isRunning <$> tasks s !! j
            = Some true) (seq 0 (length (tasks s))))
          < length (seq 0 (length (tasks s)))) as Hlt.
  { apply (length_filter_lt _ _ i).
    - apply elem_of_seq. lia.
    - by intros [? _]. }
  rewrite length_seq in Hlt. lia.
Qed.

(** *** The constructor *)

Lemma first_failure_bounds (k n : nat) :
  k <= first_failure host k n <= k + n.
Proof.
  revert k. induction n as [|n IH]; intros k; cbn; [lia|].
  destruct (spawnFails host k); [lia|]. specialize (IH (S k)). lia.
Qed.

Lemma first_failure_at (k n i : nat) :
  k <= i < k + n ->
  spawnFails host i = true ->
  (forall j, k <= j < i -> spawnFails host j = false) ->
  first_failure host k n = i.
Proof.
  revert k. induction n as [|n IH]; intros k Hi Hf Hok; cbn; [lia|].
  destruct (decide (k = i)) as [->|Hne].
  - by rewrite Hf.
  - rewrite Hok by lia. apply IH; [lia|done|]. intros j Hj. apply Hok. lia.
Qed.

Lemma first_failure_none (k n : nat) :
  (forall j, k <= j < k + n -> spawnFails host j = false) ->
  first_failure host k n = k + n.
Proof.
  revert k. induction n as [|n IH]; intros k Hok; cbn; [lia|].
  rewrite Hok by lia. rewrite IH; [lia|]. intros j Hj. apply Hok. lia.
Qed.

Lemma startTask_started (index : nat) (s : LogViewer) (t : Task) :
  tasks s !! index = Some t -> isRunning t = true ->
  spawnFails host index = false ->
  startTask host index s =
    (Normal tt,
     with_spinnerIntervals (spinnerIntervals s ++ [new_interval index])
       (with_tasks (alter (set_process (handle_of index)) index (tasks s)) s),
     [PtyWrite (handle_of index) (command t +:+ carriage_return)]).
Proof.
  intros Ht Hr Hf. unfold startTask, pty_spawn. rewrite bind_get, Ht, Hr, Hf.
  reflexivity.
Qed.

Lemma startTask_throws (index : nat) (s : LogViewer) (t : Task) :
  tasks s !! index = Some t -> isRunning t = true ->
  spawnFails host index = true ->
  startTask host index s = (Throw "Error: spawn failed", s, []).
Proof.
  intros Ht Hr Hf. unfold startTask, pty_spawn. rewrite bind_get, Ht, Hr, Hf.
  reflexivity.
Qed.

Lemma startTasks_loop (xs : list Task) (k : nat) (s : LogViewer) :
  length (tasks s) = k + length xs ->
  (forall j t, tasks s !! j = Some t -> isRunning t = true) ->
  let n := first_failure host k (length xs) in
  let r := forEach_from k (fun index _ => startTask host index) xs s in
  completion r = (if decide (n = k + length xs) then Normal tt
                  else Throw "Error: spawn failed")
  /\ (forall j t, tasks s !! j = Some t ->
       tasks (state_of r) !! j
       = Some (if decide (k <= j < n) then set_process (handle_of j) t else t))
  /\ length (tasks (state_of r)) = length (tasks s)
  /\ spinnerIntervals (state_of r)
     = spinnerIntervals s ++ (new_interval <$> seq k (n - k)).
Proof.
  revert k s. induction xs as [|x xs IH]; intros k s Hlen Hrun; cbv zeta.
  - cbn. rewrite Nat.sub_diag, decide_True by lia. cbn.
    rewrite app_nil_r. split_and!; try done.
    intros j t Ht. by rewrite decide_False by lia.
  - cbn [length] in *. cbn [first_failure forEach_from].
    destruct (lookup_lt_is_Some_2 (tasks s) k ltac:(lia)) as [t0 Ht0].
    pose proof (Hrun _ _ Ht0) as Hr0.
    rewrite completion_bind, state_of_bind.
    destruct (spawnFails host k) eqn:Hf.
    + rewrite (startTask_throws _ _ _ Ht0 Hr0 Hf). cbn.
      rewrite Nat.sub_diag, decide_False by lia. cbn. rewrite app_nil_r.
      split_and!; try done.
      intros j t Ht. by rewrite decide_False by lia.
    + rewrite (startTask_started _ _ _ Ht0 Hr0 Hf).
      cbn [completion state_of fst snd].
      set (s1 := with_spinnerIntervals _ _).
      pose proof (first_failure_bounds (S k) (length xs)) as Hb.
      destruct (IH (S k) s1) as (IH1 & IH2 & IH3 & IH4).
      { cbn. rewrite length_alter. lia. }
      { intros j t. cbn. rewrite list_lookup_alter. case_decide; subst.
        - rewrite Ht0. intros [= <-]. done.
        - apply Hrun. }
      split_and!.
      * rewrite IH1. repeat case_decide; try done; lia.
      * intros j t Ht.
        rewrite (IH2 j (if decide (k = j) then set_process (handle_of j) t
                        else t)).
        -- f_equal. repeat case_decide; try done; lia.
        -- cbn. rewrite list_lookup_alter.
           repeat case_decide; subst; by rewrite ?Ht.
      * rewrite IH3. cbn. by rewrite length_alter.
      * rewrite IH4. cbn. rewrite <- (assoc_L (++)). f_equal.
        replace (first_failure host (S k) (length xs) - k)
          with (S (first_failure host (S k) (length xs) - S k)) by lia.
        done.
Qed.

Lemma initializeUI_fresh (opts : LogViewerOptions) :
  commands opts <> [] ->
  initializeUI host (fresh opts) =
    (Normal tt,
     with_logBox ""
       (with_sidebar (getTaskLabel host <$> tasks (fresh opts)) (fresh opts)),
     [SetContent ""; Render; Render]).
Proof.
  intros Hne. destruct (commands opts) as [|c cs] eqn:E; [done|].
  unfold initializeUI. rewrite bind_modify. unfold bind at 1.
  rewrite (updateLogBox_spec _ (new_task 0 c)); [done|].
  cbn. by rewrite E.
Qed.

Lemma startTasks_keeps {X} (field : LogViewer -> X) :
  (forall v s, field (with_tasks v s) = field s) ->
  (forall v s, field (with_spinnerIntervals v s) = field s) ->
  keeps field (startTasks host).
Proof.
  intros H1 H2. unfold startTasks, forEach, startTask.
  keeps_by ltac:(first [apply H1 | apply H2]).
Qed.

Lemma fresh_tasks_lookup (opts : LogViewerOptions) (j : nat) (t : Task) :
  tasks (fresh opts) !! j = Some t ->
  exists c, commands opts !! j = Some c /\ t = new_task j c.
Proof.
  cbn. rewrite list_lookup_imap.
  destruct (commands opts !! j) as [c|]; [|done]. intros [= <-]. eauto.
Qed.

Lemma new_LogViewer_spec (opts : LogViewerOptions) :
  commands opts <> [] ->
  let n := first_failure host 0 (length (commands opts)) in
  let r := new_LogViewer host opts in
  completion r = (if decide (n = length (commands opts)) then Normal tt
                  else Throw "Error: spawn failed")
  /\ (forall j c, commands opts !! j = Some c ->
       tasks (state_of r) !! j
       = Some (if decide (j < n) then set_process (handle_of j) (new_task j c)
               else new_task j c))
  /\ length (tasks (state_of r)) = length (commands opts)
  /\ spinnerIntervals (state_of r) = new_interval <$> seq 0 n
  /\ currentTaskIndex (state_of r) = 0%Z
  /\ logBox (state_of r) = ""
  /\ length (sidebar (state_of r)) = length (commands opts)
  /\ options (state_of r) = opts.
Proof.
  intros Hne. cbv zeta. unfold new_LogViewer.
  rewrite completion_bind, state_of_bind, (initializeUI_fresh _ Hne).
  cbn [completion state_of fst snd].
  set (s0 := with_logBox _ _).
  assert (length (tasks s0) = length (commands opts)) as Hlen
    by (cbn; by rewrite length_imap).
  rewrite (startTasks_keeps currentTaskIndex), (startTasks_keeps logBox),
    (startTasks_keeps sidebar), (startTasks_keeps options) by done.
  unfold startTasks, forEach. rewrite bind_get.
  destruct (startTasks_loop (tasks s0) 0 s0) as (H1 & H2 & H3 & H4).
  { done. }
  { intros j t Ht. apply fresh_tasks_lookup in Ht as (c & _ & ->). done. }
  rewrite Hlen in *. split_and!; try done.
  - intros j c Hc. rewrite (H2 j (new_task j c)).
    + f_equal. repeat case_decide; try done; lia.
    + cbn. by rewrite list_lookup_imap, Hc.
  - rewrite H4. cbn. by rewrite Nat.sub_0_r.
  - cbn. by rewrite length_fmap, length_imap.
Qed.

Lemma new_LogViewer_ready (opts : LogViewerOptions) :
  commands opts <> [] ->
  (forall k, k < length (commands opts) -> spawnFails host k = false) ->
  completion (new_LogViewer host opts) = Normal tt
  /\ ready (state_of (new_LogViewer host opts)).
Proof.
  intros Hne Hok.
  destruct (new_LogViewer_spec opts Hne)
    as (H1 & H2 & H3 & H4 & H5 & H6 & H7 & H8).
  rewrite first_failure_none in * by (intros; apply Hok; lia).
  cbn [Nat.add] in *. rewrite decide_True in H1 by done.
  split; [done|]. unfold ready. rewrite H3, H4, H5, H7. split_and!.
  - intros j t Ht.
    assert (j < length (commands opts)) as Hj
      by (rewrite <- H3; by eapply lookup_lt_Some).
    destruct (lookup_lt_is_Some_2 _ _ Hj) as [c Hc].
    rewrite (H2 _ _ Hc), decide_True in Ht by done. by injection Ht as <-.
  - done.
  - done.
  - destruct (commands opts); [done|]. cbn. lia.
  - rewrite <- list_fmap_compose. apply Forall_fmap, Forall_forall.
    intros j Hj. apply elem_of_seq in Hj. cbn. lia.
Qed.

(** C10: the constructor leaves the selection at index 0.  For one or
    more commands the first repaint, done by [initializeUI] before any
    task is started, shows the log of task 0, which is empty; and when
    every spawn succeeds the constructor returns a viewer that is ready
    for the event loop, still with task 0 selected. *)
Theorem initial_selection_is_first_task (opts : LogViewerOptions) :
  commands opts <> [] ->
  let r := new_LogViewer host opts in
  currentTaskIndex (fresh opts) = 0%Z
  /\ (exists s0,
        initializeUI host (fresh opts)
        = (Normal tt, s0, [SetContent ""; Render; Render])
        /\ currentTaskIndex s0 = 0%Z
        /\ exists t, js_index (tasks s0) 0 = Some t /\ logs t = []
             /\ logBox s0 = join newline (logs t))
  /\ currentTaskIndex (state_of r) = 0%Z
  /\ logBox (state_of r) = ""
  /\ (exists rest, effects r = SetContent "" :: Render :: Render :: rest)
  /\ ((forall k, k < length (commands opts) -> spawnFails host k = false) ->
      completion r = Normal tt /\ ready (state_of r)
      /\ exists t, js_index (tasks (state_of r)) 0 = Some t /\ logs t = []).
Proof.
  intros Hne. cbv zeta.
  destruct (new_LogViewer_spec opts Hne)
    as (H1 & H2 & H3 & H4 & H5 & H6 & H7 & H8).
  split; [done|]. split_and!; try done.
  - eexists. split; [by apply initializeUI_fresh|]. split; [done|].
    destruct (commands opts) as [|c cs] eqn:E; [done|].
    exists (new_task 0 c). cbn. by rewrite E.
  - unfold new_LogViewer. rewrite effects_bind, (initializeUI_fresh _ Hne).
    cbn. eauto.
  - intros Hok. destruct (new_LogViewer_ready opts Hne Hok) as [Hn Hr].
    split_and!; try done.
    destruct (commands opts) as [|c cs] eqn:E; [done|].
    assert (spawnFails host 0 = false) as H0 by (apply Hok; cbn; lia).
    pose proof (H2 0 c eq_refl) as Ht. eexists. split; [exact Ht|].
    by case_decide.
Qed.

(** C3, amended: a spawn that fails is not caught.  When the spawn for
    task [i] is the first to throw, the exception leaves [startTasks] and
    the constructor: the run ends there.  Task [i] is still marked
    running, has no exit code, no process and an empty log, as has every
    task after it, none of which was started; the tasks before it keep
    the processes and timers they were given. *)
Theorem spawn_failure_is_not_caught (opts : LogViewerOptions) (i : nat) :
  i < length (commands opts) ->
  spawnFails host i = true ->
  (forall j, j < i -> spawnFails host j = false) ->
  let r := new_LogViewer host opts in
  completion r = Throw "Error: spawn failed"
  /\ length (tasks (state_of r)) = length (commands opts)
  /\ (forall j t, tasks (state_of r) !! j = Some t ->
       isRunning t = true /\ exitCode t = None /\ logs t = []
       /\ process t = if decide (j < i) then Some (handle_of j) else None)
  /\ spinnerIntervals (state_of r) = new_interval <$> seq 0 i.
Proof.
  intros Hi Hf Hok. cbv zeta.
  assert (commands opts <> []) as Hne
    by (destruct (commands opts); cbn in *; [lia|done]).
  destruct (new_LogViewer_spec opts Hne)
    as (H1 & H2 & H3 & H4 & H5 & H6 & H7 & H8).
  assert (first_failure host 0 (length (commands opts)) = i) as Hff.
  { apply first_failure_at; [lia|done|]. intros j Hj. apply Hok. lia. }
  rewrite Hff in *.
  split_and!; try done.
  - by rewrite H1, decide_False by lia.
  - intros j t Ht.
    assert (j < length (commands opts)) as Hj
      by (rewrite <- H3; by eapply lookup_lt_Some).
    destruct (lookup_lt_is_Some_2 _ _ Hj) as [c Hc].
    rewrite (H2 _ _ Hc) in Ht. injection Ht as <-.
    destruct (decide (j < i)); done.
Qed.

(** ** Further properties of the viewer *)

(** *** One event, as a function on the state *)

Lemma ready_owner (s : LogViewer) (k : nat) (iv : Interval) :
  ready s -> spinnerIntervals s !! k = Some iv -> owner iv < length (tasks s).
Proof.
  intros (_ & _ & _ & Hiv) Hk. rewrite Forall_forall in Hiv. apply Hiv.
  apply list_elem_of_fmap. exists iv. split; [done|].
  by eapply list_elem_of_lookup_2.
Qed.

Lemma dispatch_step (ev : Event) (s : LogViewer) :
  ready s -> deliverable s ev ->
  state_of (dispatch host ev s) = step_state host ev s.
Proof.
  intros Hs Hev. pose proof Hs as (Hst & Hsb & Hcur & Hiv).
  unfold dispatch. rewrite bind_get.
  destruct ev; cbn [step_state]; try done.
  - destruct (tasks s !! index) as [t|] eqn:Ht; [|done].
    cbn [mbind option_bind]. rewrite (Hst _ _ Ht).
    destruct (decide (currentTaskIndex s = Z.of_nat index)) as [Hc|Hc].
    + by rewrite (onData_selected _ _ _ _ Ht Hc).
    + by rewrite (onData_unselected _ _ _ Hc).
  - destruct (tasks s !! index) as [t|] eqn:Ht; [|done].
    cbn [mbind option_bind]. rewrite (Hst _ _ Ht).
    rewrite (onExit_spec _ _ _ _ Ht); [done|].
    rewrite Hsb. by eapply lookup_lt_Some.
  - destruct (spinnerIntervals s !! k) as [iv|] eqn:E; [|done].
    pose proof (ready_owner _ _ _ Hs E) as Ho.
    destruct (lookup_lt_is_Some_2 _ _ Ho) as [t Ht]. rewrite Ht.
    destruct (cleared iv); [done|]. cbn [negb andb].
    destruct (isRunning t) eqn:Hr.
    + rewrite (spinnerTick_running _ _ _ _ E Ht Hr); [done|]. by rewrite Hsb.
    + by rewrite (spinnerTick_exited _ _ _ _ E Ht Hr).
  - destruct (proj2 (js_index_Some (tasks s) index) Hev) as [t Ht].
    by rewrite Ht, (handleTaskSelect_spec _ _ _ Ht).
  - destruct (proj2 (js_index_Some (tasks s) (currentTaskIndex s)) Hcur)
      as [t Ht].
    by rewrite Ht, (updateLogBox_spec _ _ Ht).
  - unfold wheel. rewrite bind_get. by destruct (mouseEnabled s).
  - unfold wheel. rewrite bind_get. by destruct (mouseEnabled s).
Qed.

(** An invariant of the steps of a constructed viewer holds after every
    list of deliverable events. *)
Lemma run_ready_invariant (I : LogViewer -> Prop) :
  (forall ev s, ready s -> deliverable s ev -> I s ->
                I (step_state host ev s)) ->
  forall evs s, ready s -> Forall (deliverable s) evs -> I s ->
                I (state_of (run host evs s)).
Proof.
  intros Hstep evs. induction evs as [|ev evs IH]; intros s Hs Hevs HI; [done|].
  apply Forall_cons in Hevs as [Hev Hevs].
  rewrite run_cons_state, dispatch_normal by done.
  apply IH.
  - by apply dispatch_ready_state.
  - eapply Forall_impl; [exact Hevs|]. intros ev'. apply deliverable_length.
    by rewrite dispatch_tasks, tasks_after_length by apply Hs.
  - rewrite dispatch_step by done. by apply Hstep.
Qed.

(** *** The log pane follows the selected task *)

Lemma js_index_alter_ne {A} (f : A -> A) (l : list A) (i : nat) (z : Z) :
  z <> Z.of_nat i -> js_index (alter f i l) z = js_index l z.
Proof.
  intros Hz. unfold js_index. destruct (Z.ltb_spec z 0); [done|].
  apply list_lookup_alter_ne. lia.
Qed.

Lemma step_in_sync (ev : Event) (s : LogViewer) :
  ready s -> deliverable s ev -> in_sync s -> in_sync (step_state host ev s).
Proof.
  intros Hs Hev (t & Ht & Hl). destruct ev; cbn [step_state].
  - destruct (tasks s !! index) as [t0|] eqn:Ht0; [|by exists t].
    cbv zeta. case_decide as Hc.
    + exists (push_log data t0). split; [|done]. cbn.
      by rewrite Hc, js_index_of_nat, list_lookup_alter_eq, Ht0.
    + exists t. split; [|done]. cbn. by rewrite js_index_alter_ne.
  - destruct (tasks s !! index) as [t0|] eqn:Ht0; [|by exists t].
    unfold exit_state. cbv zeta. rewrite list_lookup_alter_eq, Ht0.
    cbn [fmap option_fmap option_map default compose].
    destruct (decide (currentTaskIndex s = Z.of_nat index)) as [Hc|Hc].
    + exists (mark_exited host exitCode0 t0). split; [|done].
      cbn [tasks currentTaskIndex with_sidebar with_logBox with_tasks].
      by rewrite Hc, js_index_of_nat, list_lookup_alter_eq, Ht0.
    + exists t. split; [|done].
      cbn [tasks currentTaskIndex with_sidebar with_logBox with_tasks].
      by rewrite js_index_alter_ne.
  - exists t. repeat case_match; done.
  - cbn in Hev.
    destruct (proj2 (js_index_Some (tasks s) index) Hev) as [t' Ht'].
    rewrite Ht'. by exists t'.
  - rewrite Ht. by exists t.
  - by exists t.
  - by exists t.
  - by exists t.
  - done.
Qed.

(** X1: the log pane is never stale.  Once the log box holds the joined
    log of the selected task, as it does when the constructor returns, it
    does so after every list of deliverable events, whichever tasks
    produced output or exited and whatever was selected in between. *)
Theorem log_pane_stays_in_sync (s : LogViewer) (evs : list Event) :
  ready s ->
  Forall (deliverable s) evs ->
  in_sync s ->
  in_sync (state_of (run host evs s)).
Proof.
  intros Hs Hevs Hsync.
  by apply (run_ready_invariant in_sync step_in_sync).
Qed.

(** *** Final labels in the sidebar *)

Lemma step_exited_labelled (ev : Event) (s : LogViewer) :
  ready s -> deliverable s ev ->
  exited_labelled host s -> exited_labelled host (step_state host ev s).
Proof.
  intros Hs Hev Hlab. pose proof Hs as (_ & Hsb & _).
  destruct ev; cbn [step_state]; try done.
  - destruct (tasks s !! index) as [t0|] eqn:Ht0; [|done].
    assert (exited_labelled host
              (with_tasks (alter (push_log data) index (tasks s)) s)) as H.
    { intros j t'. cbn. rewrite list_lookup_alter. case_decide; subst.
      - rewrite Ht0. intros [= <-] Hr. by apply (Hlab _ _ Ht0).
      - apply Hlab. }
    cbv zeta. by case_decide.
  - destruct (tasks s !! index) as [t0|] eqn:Ht0; [|done].
    intros j t'. unfold exit_state. cbv zeta.
    cbn [tasks sidebar with_sidebar with_logBox with_tasks].
    rewrite list_lookup_alter.
    destruct (decide (index = j)) as [<-|Hne].
    + rewrite Ht0. intros [= <-] _. rewrite list_lookup_alter_eq, Ht0.
      cbn [fmap option_fmap option_map default].
      apply list_lookup_insert_eq. rewrite Hsb. by eapply lookup_lt_Some.
    + intros Ht' Hr. rewrite list_lookup_insert_ne by done. by apply Hlab.
  - destruct (spinnerIntervals s !! k) as [iv|]; [|done].
    destruct (tasks s !! owner iv) as [t0|] eqn:Ht0; [|done].
    destruct (negb (cleared iv) && isRunning t0) eqn:Hb; [|done].
    apply andb_true_iff in Hb as [_ Hr0].
    intros j t' Ht' Hr. cbn in *. rewrite list_lookup_insert_ne.
    + by apply Hlab.
    + intros Heq. rewrite <- Heq, Ht0 in Ht'. injection Ht' as <-. congruence.
  - by destruct (js_index (tasks s) index).
  - by destruct (js_index (tasks s) (currentTaskIndex s)).
Qed.

Lemma getTaskLabel_exited (c : Z) (t : Task) :
  getTaskLabel host (mark_exited host c t)
  = if decide (c = 0%Z) then pc_green host "✓" +:+ " " +:+ title t
    else "✗ " +:+ title t.
Proof.
  unfold getTaskLabel. cbn [isRunning exitCode mark_exited push_log
    set_exitCode set_isRunning title].
  repeat case_decide; try done; congruence.
Qed.

(** X2: the status glyph of an exit.  Handling the exit event of task [i]
    with code [c] sets the sidebar item of that task, selected or not, to
    the green check mark and the title when [c = 0] and to the cross and
    the title otherwise; no other item changes, and the log box changes
    only when task [i] is the selected one. *)
Theorem exit_sets_status_glyph (s : LogViewer) (i : nat) (c : Z) (t : Task) :
  ready s ->
  tasks s !! i = Some t ->
  sidebar (state_of (dispatch host (PtyExit i c) s)) !! i
  = Some (if decide (c = 0%Z) then pc_green host "✓" +:+ " " +:+ title t
          else "✗ " +:+ title t)
  /\ (forall j, j <> i ->
        sidebar (state_of (dispatch host (PtyExit i c) s)) !! j
        = sidebar s !! j)
  /\ (currentTaskIndex s <> Z.of_nat i ->
      logBox (state_of (dispatch host (PtyExit i c) s)) = logBox s).
Proof.
  intros Hs Ht. pose proof Hs as (_ & Hsb & _).
  rewrite dispatch_step by done. cbn [step_state]. rewrite Ht.
  unfold exit_state. cbv zeta. rewrite list_lookup_alter_eq, Ht.
  cbn [fmap option_fmap option_map default compose
       sidebar logBox with_sidebar with_logBox with_tasks].
  split_and!.
  - rewrite list_lookup_insert_eq by (rewrite Hsb; by eapply lookup_lt_Some).
    by rewrite getTaskLabel_exited.
  - intros j Hj. by rewrite list_lookup_insert_ne.
  - intros Hc. by rewrite decide_False.
Qed.

(** X3: a final label stays.  Once every exited task has its final label
    in the sidebar, this remains so after every list of deliverable
    events: an exit event writes the label of its task, and a spinner tick
    writes only to the item of a task that is still running. *)
Theorem exited_labels_are_final (s : LogViewer) (evs : list Event) :
  ready s ->
  Forall (deliverable s) evs ->
  exited_labelled host s ->
  exited_labelled host (state_of (run host evs s)).
Proof.
  intros Hs Hevs Hlab.
  by apply (run_ready_invariant (exited_labelled host) step_exited_labelled).
Qed.

(** *** Spinner frames *)

Lemma advance_spinner_in_range (iv : Interval) :
  spinnerIndex (advance_spinner iv) < length spinnerFrames.
Proof.
  unfold advance_spinner. cbn [spinnerIndex].
  apply Nat.mod_upper_bound. discriminate.
Qed.

Lemma dispatch_frames_in_range (ev : Event) (s : LogViewer) :
  frames_in_range s -> frames_in_range (state_of (dispatch host ev s)).
Proof.
  intros Hf. unfold frames_in_range in *.
  assert ((exists k, ev = TimerTick k) \/ ev = Quit
          \/ ((forall k, ev <> TimerTick k) /\ ev <> Quit))
    as [[k ->]|[->|[H1 H2]]] by (destruct ev; eauto).
  - unfold dispatch. rewrite bind_get.
    destruct (spinnerIntervals s !! k) as [iv|]; [|done].
    destruct (cleared iv); [done|].
    destruct (spinnerTick_intervals k s) as [-> | ->]; [done|].
    apply Forall_alter; [done|]. intros. apply advance_spinner_in_range.
  - unfold dispatch. rewrite bind_get. unfold bind at 1.
    rewrite cleanup_spec. cbn [state_of fst snd process_exit].
    cbn. apply Forall_fmap. eapply Forall_impl; [exact Hf|]. by intros iv.
  - by rewrite dispatch_spinnerIntervals.
Qed.

(** X4: the spinner never runs off its frames.  The constructor leaves
    every spinner index inside the ten frames, no event of any kind moves
    one outside, and so the frame a tick writes is always one of the ten
    glyphs, never the text of a missing array element. *)
Theorem spinner_frame_always_defined (s : LogViewer) (evs : list Event) :
  frames_in_range s ->
  frames_in_range (state_of (run host evs s))
  /\ (forall k iv,
        spinnerIntervals (state_of (run host evs s)) !! k = Some iv ->
        exists glyph, spinnerFrames !! spinnerIndex iv = Some glyph
          /\ forall t, spinner_label (spinnerIndex iv) t
                       = glyph +:+ " " +:+ title t)
  /\ (forall opts, commands opts <> [] ->
        frames_in_range (state_of (new_LogViewer host opts))).
Proof.
  intros Hf.
  assert (frames_in_range (state_of (run host evs s))) as Hr.
  { apply run_invariant; [|done]. apply dispatch_frames_in_range. }
  split_and!; [done| |].
  - intros k iv Hk.
    pose proof (Forall_lookup_1 _ _ _ _ Hr Hk) as Hlt. cbn beta in Hlt.
    destruct (lookup_lt_is_Some_2 _ _ Hlt) as [glyph Hg].
    exists glyph. split; [done|]. intros t. unfold spinner_label.
    by rewrite Hg.
  - intros opts Hne.
    destruct (new_LogViewer_spec opts Hne) as (_ & _ & _ & H4 & _).
    unfold frames_in_range. rewrite H4. apply Forall_fmap, Forall_forall.
    intros j _. cbn. lia.
Qed.

Lemma interval_eta (iv : Interval) :
  cleared iv = false ->
  {| owner := owner iv; spinnerIndex := spinnerIndex iv; cleared := false |}
  = iv.
Proof. destruct iv. cbn. by intros ->. Qed.

(** X5: the spinner cycles.  [n] ticks of the timer of a task that is
    running move its frame index [n] places round the ten frames, so ten
    ticks bring it back to where it was; the ticks change no task, not
    the selection and not the log box. *)
Theorem spinner_cycles (n k : nat) (s : LogViewer) (iv : Interval) (t : Task) :
  ready s ->
  spinnerIntervals s !! k = Some iv ->
  cleared iv = false ->
  spinnerIndex iv < 10 ->
  tasks s !! owner iv = Some t ->
  isRunning t = true ->
  completion (run host (replicate n (TimerTick k)) s) = Normal tt
  /\ spinnerIntervals (state_of (run host (replicate n (TimerTick k)) s)) !! k
     = Some {| owner := owner iv;
               spinnerIndex := (spinnerIndex iv + n) `mod` 10;
               cleared := false |}
  /\ tasks (state_of (run host (replicate n (TimerTick k)) s)) = tasks s
  /\ logBox (state_of (run host (replicate n (TimerTick k)) s)) = logBox s
  /\ currentTaskIndex (state_of (run host (replicate n (TimerTick k)) s))
     = currentTaskIndex s
  /\ (n = 10 ->
      spinnerIntervals (state_of (run host (replicate n (TimerTick k)) s)) !! k
      = Some iv).
Proof.
  intros Hs Hk Hc Hlt Ht Hr.
  assert (completion (run host (replicate n (TimerTick k)) s) = Normal tt
    /\ spinnerIntervals (state_of (run host (replicate n (TimerTick k)) s)) !! k
       = Some {| owner := owner iv;
                 spinnerIndex := (spinnerIndex iv + n) `mod` 10;
                 cleared := false |}
    /\ tasks (state_of (run host (replicate n (TimerTick k)) s)) = tasks s
    /\ logBox (state_of (run host (replicate n (TimerTick k)) s)) = logBox s
    /\ currentTaskIndex (state_of (run host (replicate n (TimerTick k)) s))
       = currentTaskIndex s) as (H1 & H2 & H3 & H4 & H5).
  { revert s iv Hs Hk Hc Hlt Ht Hr.
    induction n as [|n IH]; intros s iv Hs Hk Hc Hlt Ht Hr.
    - cbn [replicate run]. unfold ret. cbn [completion state_of fst snd].
      rewrite Hk, Nat.add_0_r, Nat.mod_small by done.
      by rewrite interval_eta.
    - cbn [replicate]. rewrite run_cons_state.
      cbn [run]. rewrite completion_bind.
      rewrite dispatch_normal, dispatch_step by done.
      cbn [step_state]. rewrite Hk, Ht, Hc, Hr. cbn [negb andb].
      set (s1 := with_spinnerIntervals _ _).
      assert (ready s1) as Hs1.
      { replace s1 with (state_of (dispatch host (TimerTick k) s)).
        - by apply dispatch_ready_state.
        - rewrite dispatch_step by done. cbn [step_state].
          by rewrite Hk, Ht, Hc, Hr. }
      destruct (IH s1 (advance_spinner iv)) as (I1 & I2 & I3 & I4 & I5);
        try done.
      + unfold s1. cbn. by rewrite list_lookup_alter_eq, Hk.
      + apply advance_spinner_in_range.
      + split_and!; try done. rewrite I2. do 2 f_equal.
        unfold advance_spinner. cbn [spinnerIndex length spinnerFrames].
        rewrite Nat.Div0.add_mod_idemp_l. f_equal. lia. }
  split_and!; try done.
  intros ->. rewrite H2. f_equal.
  replace ((spinnerIndex iv + 10) `mod` 10) with (spinnerIndex iv).
  - by apply interval_eta.
  - replace (spinnerIndex iv + 10) with (spinnerIndex iv + 1 * 10) by lia.
    by rewrite Nat.Div0.mod_add, Nat.mod_small.
Qed.

(** *** Selection, isolation of tasks, and the default flags *)

Lemma step_currentTaskIndex (ev : Event) (s : LogViewer) :
  currentTaskIndex (step_state host ev s)
  = match ev with SidebarSelect z => z | _ => currentTaskIndex s end.
Proof.
  destruct ev; cbn [step_state]; try done; repeat case_match; done.
Qed.

(** X6: the last selection wins.  After a list of deliverable events the
    selected index is the index of the last selection event in the list,
    and the index selected before when the list has none; output, exits
    and ticks never move the selection. *)
Theorem selection_is_last_selected (s : LogViewer) (evs : list Event) :
  ready s ->
  Forall (deliverable s) evs ->
  currentTaskIndex (state_of (run host evs s))
  = selection_after evs (currentTaskIndex s).
Proof.
  revert s. induction evs as [|ev evs IH]; intros s Hs Hevs; [done|].
  apply Forall_cons in Hevs as [Hev Hevs].
  rewrite run_cons_state, dispatch_normal by done.
  rewrite IH.
  - rewrite dispatch_step, step_currentTaskIndex by done. reflexivity.
  - by apply dispatch_ready_state.
  - eapply Forall_impl; [exact Hevs|]. intros ev'. apply deliverable_length.
    by rewrite dispatch_tasks, tasks_after_length by apply Hs.
Qed.

Lemma tasks_after_static (ev : Event) (ts : list Task) (j : nat) :
  static_fields <$> tasks_after host ev ts !! j = static_fields <$> ts !! j.
Proof.
  destruct ev; cbn; try done; rewrite list_lookup_alter; case_decide; subst;
    try done; by destruct (ts !! j).
Qed.

(** X7: tasks are isolated and the registry is fixed.  Whatever events are
    handled, the task array keeps its length and every task keeps its id,
    title, command and process handle; and a task for which the events
    hold no data or exit event of its own is left exactly as it was, even
    when other tasks exit and the kill broadcast signals it: it stays
    marked running until its own exit event is handled. *)
Theorem tasks_change_only_by_own_events (s : LogViewer) (evs : list Event) :
  started s ->
  length (tasks (state_of (run host evs s))) = length (tasks s)
  /\ (forall j,
        static_fields <$> tasks (state_of (run host evs s)) !! j
        = static_fields <$> tasks s !! j)
  /\ (forall j,
        Forall (fun ev => ~ is_event_of j ev) evs ->
        tasks (state_of (run host evs s)) !! j = tasks s !! j).
Proof.
  intros Hs.
  assert (started (state_of (run host evs s))
          /\ length (tasks (state_of (run host evs s))) = length (tasks s)
          /\ forall j, static_fields <$> tasks (state_of (run host evs s)) !! j
                       = static_fields <$> tasks s !! j) as (_ & H1 & H2).
  { apply (run_invariant (fun s' => started s'
      /\ length (tasks s') = length (tasks s)
      /\ forall j, static_fields <$> tasks s' !! j
                   = static_fields <$> tasks s !! j)); [|done].
    intros ev s' (Hs' & Hl & Hf). split; [by apply dispatch_started|].
    rewrite dispatch_tasks by done. split.
    - by rewrite tasks_after_length.
    - intros j. by rewrite tasks_after_static. }
  split_and!; [done..|].
  intros j Hevs.
  assert (started (state_of (run host evs s))
          /\ tasks (state_of (run host evs s)) !! j = tasks s !! j) as [_ H3].
  { apply (run_invariant_on (fun ev => ~ is_event_of j ev)
      (fun s' => started s' /\ tasks s' !! j = tasks s !! j)); [|done..].
    intros ev s' Hev (Hs' & Ht). split; [by apply dispatch_started|].
    rewrite dispatch_tasks by done. by rewrite tasks_after_other. }
  done.
Qed.

(** X8: the default flags never kill.  With neither [killOthers] nor
    [killOthersOnFail] set, no list of deliverable events makes the
    viewer signal any process, whatever the exit codes; only the quit key
    does. *)
Theorem no_flag_no_kill (s : LogViewer) (evs : list Event) :
  ready s ->
  Forall (deliverable s) evs ->
  killOthers (options s) = false ->
  killOthersOnFail (options s) = false ->
  kills (effects (run host evs s)) = [].
Proof.
  revert s. induction evs as [|ev evs IH]; intros s Hs Hevs Hk Hkf; [done|].
  apply Forall_cons in Hevs as [Hev Hevs].
  rewrite run_cons_effects, kills_app, dispatch_normal by done.
  rewrite dispatch_no_kills; [|done..|].
  - change (kills (effects (run host evs (state_of (dispatch host ev s))))
            = []).
    apply IH.
    + by apply dispatch_ready_state.
    + eapply Forall_impl; [exact Hevs|]. intros ev'. apply deliverable_length.
      by rewrite dispatch_tasks, tasks_after_length by apply Hs.
    + by rewrite (dispatch_options ev s).
    + by rewrite (dispatch_options ev s).
  - intros i c _. unfold kill_policy. by rewrite Hk, Hkf.
Qed.


(** *** The constructor and the program entry *)

Lemma startTasks_loop_effects (xs : list Task) (k : nat) (s : LogViewer) :
  length (tasks s) = k + length xs ->
  (forall j t, tasks s !! j = Some t -> isRunning t = true) ->
  (forall j, k <= j < k + length xs -> spawnFails host j = false) ->
  effects (forEach_from k (fun index _ => startTask host index) xs s)
  = (fun j => PtyWrite (handle_of j)
                (default "" (command <$> tasks s !! j) +:+ carriage_return))
      <$> seq k (length xs).
Proof.
  revert k s. induction xs as [|x xs IH]; intros k s Hlen Hrun Hok; [done|].
  cbn [length] in *. cbn [forEach_from seq fmap list_fmap].
  destruct (lookup_lt_is_Some_2 (tasks s) k ltac:(lia)) as [t0 Ht0].
  pose proof (Hrun _ _ Ht0) as Hr0.
  rewrite effects_bind, (startTask_started _ _ _ Ht0 Hr0) by (apply Hok; lia).
  cbn [effects completion state_of fst snd app]. rewrite Ht0. cbn [fmap
    option_fmap option_map default]. f_equal.
  rewrite IH.
  - apply list_fmap_ext. intros i j Hj. apply lookup_seq in Hj as [-> _].
    cbn [tasks with_tasks with_spinnerIntervals].
    by rewrite list_lookup_alter_ne by lia.
  - cbn. rewrite length_alter. lia.
  - intros j t. cbn. rewrite list_lookup_alter. case_decide; subst.
    + rewrite Ht0. by intros [= <-].
    + apply Hrun.
  - intros j Hj. apply Hok. lia.
Qed.

Lemma new_LogViewer_tasks (opts : LogViewerOptions) :
  commands opts <> [] ->
  (forall k, k < length (commands opts) -> spawnFails host k = false) ->
  tasks (state_of (new_LogViewer host opts))
  = imap started_task (commands opts).
Proof.
  intros Hne Hok.
  destruct (new_LogViewer_spec opts Hne) as (_ & H2 & H3 & _).
  rewrite first_failure_none in H2 by (intros; apply Hok; lia).
  apply list_eq. intros j. rewrite list_lookup_imap.
  destruct (commands opts !! j) as [c|] eqn:Hc.
  - rewrite (H2 _ _ Hc), decide_True; [done|]. cbn.
    by eapply lookup_lt_Some.
  - apply lookup_ge_None. rewrite H3. by apply lookup_ge_None.
Qed.

(** X10: what the constructor builds.  For one or more commands on a host
    where every spawn succeeds the constructor returns normally with one
    task per command, in order: task [i] has id [task-i], the command as
    title, is marked running, has an empty log, no exit code and the
    handle of the [i]-th spawned shell; the sidebar shows each command
    after the idle glyph, task 0 is selected with an empty log box, mouse
    capture is on, and there is one fresh spinner timer per task.  The
    trace is the first repaint followed by one write per task, in order,
    of the command and a carriage return to its shell. *)
Theorem constructor_builds_registry (opts : LogViewerOptions) :
  commands opts <> [] ->
  (forall k, k < length (commands opts) -> spawnFails host k = false) ->
  new_LogViewer host opts =
    (Normal tt,
     {| sidebar := (fun c => "⟳ " +:+ c) <$> commands opts;
        logBox := "";
        tasks := imap started_task (commands opts);
        currentTaskIndex := 0;
        options := opts;
        spinnerIntervals := new_interval <$> seq 0 (length (commands opts));
        mouseEnabled := true |},
     [SetContent ""; Render; Render]
       ++ imap (fun j c => PtyWrite (handle_of j) (c +:+ carriage_return))
            (commands opts)).
Proof.
  intros Hne Hok.
  destruct (new_LogViewer_spec opts Hne)
    as (H1 & _ & _ & H4 & H5 & H6 & _ & H8).
  pose proof (new_LogViewer_tasks opts Hne Hok) as H2.
  rewrite first_failure_none in * by (intros; apply Hok; lia).
  cbn [Nat.add] in *. rewrite decide_True in H1 by done.
  assert (sidebar (state_of (new_LogViewer host opts))
          = (fun c => "⟳ " +:+ c) <$> commands opts) as H7.
  { unfold new_LogViewer.
    rewrite state_of_bind, (initializeUI_fresh _ Hne).
    cbn [completion state_of fst snd].
    rewrite (startTasks_keeps sidebar) by done. cbn.
    apply list_eq. intros j.
    rewrite !list_lookup_fmap, list_lookup_imap.
    by destruct (commands opts !! j). }
  assert (mouseEnabled (state_of (new_LogViewer host opts)) = true) as H9.
  { unfold new_LogViewer.
    rewrite state_of_bind, (initializeUI_fresh _ Hne).
    cbn [completion state_of fst snd].
    by rewrite (startTasks_keeps mouseEnabled). }
  assert (effects (new_LogViewer host opts)
          = [SetContent ""; Render; Render]
            ++ imap (fun j c => PtyWrite (handle_of j) (c +:+ carriage_return))
                 (commands opts)) as H10.
  { unfold new_LogViewer.
    rewrite effects_bind, (initializeUI_fresh _ Hne).
    cbn [completion state_of effects fst snd]. f_equal.
    unfold startTasks, forEach. rewrite bind_get.
    rewrite startTasks_loop_effects.
    - cbn [tasks with_logBox with_sidebar fresh].
      rewrite length_imap. apply list_eq. intros j.
      rewrite list_lookup_fmap, !list_lookup_imap.
      destruct (commands opts !! j) as [c|] eqn:Hc.
      + rewrite lookup_seq_lt by by eapply lookup_lt_Some. cbn.
        by rewrite list_lookup_imap, Hc.
      + rewrite lookup_seq_ge; [done|]. by apply lookup_ge_None.
    - done.
    - intros j t Ht. apply fresh_tasks_lookup in Ht as (c & _ & ->). done.
    - intros j Hj. apply Hok. cbn in Hj. rewrite length_imap in Hj. lia. }
  destruct (new_LogViewer host opts) as [[r s'] e].
  unfold completion, state_of, effects in *. cbn [fst snd] in *.
  destruct s'. cbn in *. by subst.
Qed.

(** X11: the entry point needs a command.  With no command the program
    reports the error and exits with status 1 before any widget is
    written or any process is spawned; the guard matters, because the
    constructor itself would throw on an empty command list, in its first
    repaint.  With at least one command and working spawns the entry
    point hands over a viewer that is ready for the event loop, with one
    task per command, the given flags, and the log pane in sync with the
    selected task. *)
Theorem main_needs_a_command (k kf : bool) :
  main host [] k kf
  = (ProcessExit 1, None,
     [ConsoleError "Error: At least one command is required"])
  /\ (let opts := {| commands := []; killOthers := k;
                     killOthersOnFail := kf |} in
      new_LogViewer host opts
      = (Throw "TypeError: Cannot read properties of undefined",
         fresh opts, []))
  /\ (forall args,
        args <> [] ->
        (forall j, j < length args -> spawnFails host j = false) ->
        exists s e,
          main host args k kf = (Normal tt, Some s, e)
          /\ ready s /\ in_sync s
          /\ length (tasks s) = length args
          /\ options s = {| commands := args; killOthers := k;
                            killOthersOnFail := kf |}).
Proof.
  split; [done|]. split; [done|].
  intros args Hne Hok.
  set (opts := {| commands := args; killOthers := k; killOthersOnFail := kf |}).
  assert (commands opts <> []) as Hne' by done.
  destruct (new_LogViewer_ready opts Hne' Hok) as [Hn Hr].
  destruct (new_LogViewer_spec opts Hne')
    as (_ & H2 & H3 & _ & H5 & H6 & _ & H8).
  exists (state_of (new_LogViewer host opts)), (effects (new_LogViewer host opts)).
  split_and!; try done.
  - unfold main. destruct args; [done|]. fold opts. by rewrite Hn.
  - destruct args as [|c cs]; [done|].
    pose proof (H2 0 c eq_refl) as Ht. eexists. rewrite H5, H6.
    split; [exact Ht|]. by case_decide.
Qed.

(** *** Signals are not remembered *)

Lemma dispatch_exit_kills (s : LogViewer) (i : nat) (c : Z) (t : Task) :
  ready s -> tasks s !! i = Some t ->
  kills (effects (dispatch host (PtyExit i c) s))
  = if kill_policy (options s) c
    then handle_of <$> running_others i (tasks s) else [].
Proof.
  intros (Hst & Hsb & Hcur & Hiv) Ht.
  unfold dispatch. rewrite bind_get.
  rewrite Ht. cbn [mbind option_bind]. rewrite (Hst _ _ Ht).
  rewrite (onExit_spec _ _ _ _ Ht); cycle 1.
  { rewrite Hsb. by eapply lookup_lt_Some. }
  cbn [effects snd]. rewrite !kills_app.
  destruct (kill_policy _ _).
  - rewrite kills_Kill, kill_targets_after_exit by done. by case_decide.
  - by case_decide.
Qed.

Lemma elem_of_running_others (i j : nat) (ts : list Task) :
  j ∈ running_others i ts <->
  j <> i /\ exists t, ts !! j = Some t /\ isRunning t = true.
Proof.
  unfold running_others. rewrite list_elem_of_filter, elem_of_seq. split.
  - intros [[Hne Hr] _]. split; [done|].
    destruct (ts !! j) as [t|]; [|done]. exists t. split; [done|].
    by injection Hr.
  - intros (Hne & t & Ht & Hr). split; [by rewrite Ht, <- Hr|].
    split; [lia|]. cbn. by eapply lookup_lt_Some.
Qed.

(** X12: signals are not remembered.  The broadcast looks only at
    [isRunning], which changes when a task's own exit event is handled,
    not when the task is signalled.  So when two tasks [i] and [j] exit in
    turn, each with a code that triggers the broadcast, a third task that
    is running and whose exit event has not been handled yet is signalled
    by both broadcasts. *)
Theorem pending_task_is_signalled_again (s : LogViewer) (i j r : nat)
    (c d : Z) (ti tj tr : Task) :
  ready s ->
  i <> j -> r <> i -> r <> j ->
  tasks s !! i = Some ti ->
  tasks s !! j = Some tj ->
  tasks s !! r = Some tr ->
  isRunning tr = true ->
  kill_policy (options s) c = true ->
  kill_policy (options s) d = true ->
  handle_of r ∈ kills (effects (dispatch host (PtyExit i c) s))
  /\ handle_of r ∈
       kills (effects (dispatch host (PtyExit j d)
                         (state_of (dispatch host (PtyExit i c) s)))).
Proof.
  intros Hs Hij Hri Hrj Hi Hj Hr Hrun Hc Hd.
  assert (ready (state_of (dispatch host (PtyExit i c) s))) as Hs1
    by by apply dispatch_ready_state.
  assert (tasks (state_of (dispatch host (PtyExit i c) s))
          = alter (mark_exited host c) i (tasks s)) as Hts
    by (rewrite dispatch_tasks by apply Hs; done).
  split.
  - rewrite (dispatch_exit_kills _ _ _ _ Hs Hi), Hc.
    apply list_elem_of_fmap. exists r. split; [done|].
    apply elem_of_running_others. eauto.
  - rewrite (dispatch_exit_kills _ _ _ tj Hs1);
      [|by rewrite Hts, list_lookup_alter_ne].
    rewrite (dispatch_options (PtyExit i c) s), Hd.
    apply list_elem_of_fmap. exists r. split; [done|].
    apply elem_of_running_others. split; [done|]. exists tr.
    by rewrite Hts, list_lookup_alter_ne.
Qed.

(** *** Labels of running tasks *)

Lemma step_running_labelled (ev : Event) (s : LogViewer) :
  ready s -> deliverable s ev ->
  frames_in_range s /\ running_labelled s ->
  frames_in_range (step_state host ev s)
  /\ running_labelled (step_state host ev s).
Proof.
  intros Hs Hev [Hf Hlab]. split.
  { rewrite <- dispatch_step by done. by apply dispatch_frames_in_range. }
  pose proof Hs as (_ & Hsb & _).
  destruct ev; cbn [step_state]; try done.
  - destruct (tasks s !! index) as [t0|] eqn:Ht0; [|done].
    assert (running_labelled
              (with_tasks (alter (push_log data) index (tasks s)) s)) as H.
    { intros j t'. cbn. rewrite list_lookup_alter. case_decide; subst.
      - rewrite Ht0. intros [= <-] Hr. by apply (Hlab _ _ Ht0).
      - apply Hlab. }
    cbv zeta. by case_decide.
  - destruct (tasks s !! index) as [t0|] eqn:Ht0; [|done].
    intros j t'. unfold exit_state. cbv zeta.
    cbn [tasks sidebar with_sidebar with_logBox with_tasks].
    rewrite list_lookup_alter.
    destruct (decide (index = j)) as [<-|Hne].
    + rewrite Ht0. by intros [= <-] Hr.
    + intros Ht' Hr. rewrite list_lookup_insert_ne by done. by apply Hlab.
  - destruct (spinnerIntervals s !! k) as [iv|] eqn:Hk; [|done].
    destruct (tasks s !! owner iv) as [t0|] eqn:Ht0; [|done].
    destruct (negb (cleared iv) && isRunning t0) eqn:Hb; [|done].
    intros j t' Ht' Hr. cbn in Ht' |- *.
    destruct (decide (owner iv = j)) as [<-|Hne].
    + rewrite Ht0 in Ht'. injection Ht' as <-.
      pose proof (Forall_lookup_1 _ _ _ _ Hf Hk) as Hlt. cbn beta in Hlt.
      destruct (lookup_lt_is_Some_2 _ _ Hlt) as [glyph Hg].
      exists glyph. split.
      * right. by eapply list_elem_of_lookup_2.
      * rewrite list_lookup_insert_eq
          by (rewrite Hsb; by eapply lookup_lt_Some).
        unfold spinner_label. by rewrite Hg.
    + rewrite list_lookup_insert_ne by done. by apply Hlab.
  - by destruct (js_index (tasks s) index).
  - by destruct (js_index (tasks s) (currentTaskIndex s)).
Qed.

(** X13: the sidebar keeps the titles.  Once every spinner index is in
    range and every running task has its title in the sidebar after the
    idle glyph or a spinner frame, as it is when the constructor returns,
    this remains so after every list of deliverable events. *)
Theorem running_labels_keep_titles (s : LogViewer) (evs : list Event) :
  ready s ->
  Forall (deliverable s) evs ->
  frames_in_range s ->
  running_labelled s ->
  running_labelled (state_of (run host evs s)).
Proof.
  intros Hs Hevs Hf Hlab.
  by apply (run_ready_invariant
              (fun s' => frames_in_range s' /\ running_labelled s')
              step_running_labelled).
Qed.

(** *** Whom the broadcasts of a run signal *)

Lemma handle_of_inj (i j : nat) : handle_of i = handle_of j -> i = j.
Proof. by intros [=]. Qed.

Lemma tasks_after_all_snoc (evs : list Event) (ev : Event) (ts : list Task) :
  tasks_after_all host (evs ++ [ev]) ts
  = tasks_after host ev (tasks_after_all host evs ts).
Proof. unfold tasks_after_all. by rewrite foldl_app. Qed.

Lemma tasks_after_all_length (evs : list Event) (ts : list Task) :
  length (tasks_after_all host evs ts) = length ts.
Proof.
  revert ts. induction evs as [|ev evs IH]; intros ts; [done|].
  change (length (tasks_after_all host evs (tasks_after host ev ts))
          = length ts).
  by rewrite IH, tasks_after_length.
Qed.

Lemma kills_go_to_running (xs : list (nat * Z)) (s : LogViewer) (p : IPty) :
  ready s ->
  Forall (fun x => x.1 < length (tasks s)) xs ->
  p ∈ kills (effects (run host (exit_events xs) s)) ->
  exists r t, p = handle_of r /\ tasks s !! r = Some t /\ isRunning t = true.
Proof.
  revert s. induction xs as [|[j c] xs IH]; intros s Hs Hxs Hp.
  { by apply elem_of_nil in Hp. }
  apply Forall_cons in Hxs as [Hj Hxs]. cbn in Hj.
  destruct (lookup_lt_is_Some_2 _ _ Hj) as [tj Htj].
  change (exit_events ((j, c) :: xs)) with (PtyExit j c :: exit_events xs)
    in Hp.
  rewrite run_cons_effects, kills_app, dispatch_normal in Hp by done.
  apply elem_of_app in Hp as [Hp|Hp].
  - rewrite (dispatch_exit_kills _ _ _ _ Hs Htj) in Hp.
    destruct (kill_policy _ _); [|by apply elem_of_nil in Hp].
    apply list_elem_of_fmap in Hp as (r & -> & Hr).
    apply elem_of_running_others in Hr as (_ & t & Ht & Hrun). eauto.
  - assert (tasks (state_of (dispatch host (PtyExit j c) s))
            = alter (mark_exited host c) j (tasks s)) as Hts
      by (rewrite dispatch_tasks by apply Hs; done).
    destruct (IH (state_of (dispatch host (PtyExit j c) s)))
      as (r & t & -> & Ht & Hrun); [by apply dispatch_ready_state| |done|].
    { eapply Forall_impl; [exact Hxs|]. intros x.
      by rewrite Hts, length_alter. }
    rewrite Hts, list_lookup_alter in Ht. case_decide; subst.
    + rewrite Htj in Ht. injection Ht as <-. done.
    + eauto.
Qed.

Lemma second_broadcast_signals_again (s : LogViewer) (i j r : nat)
    (c d : Z) (ti tj tr : Task) :
  ready s ->
  i <> j -> r <> i -> r <> j ->
  tasks s !! i = Some ti ->
  tasks s !! j = Some tj ->
  tasks s !! r = Some tr ->
  isRunning tr = true ->
  kill_policy (options s) c = true ->
  kill_policy (options s) d = true ->
  handle_of r ∈ kills (effects (dispatch host (PtyExit i c) s))
  /\ handle_of r ∈
       kills (effects (dispatch host (PtyExit j d)
                         (state_of (dispatch host (PtyExit i c) s)))).
Proof.
  intros Hs Hij Hri Hrj Hi Hj Hr Hrun Hc Hd.
  assert (ready (state_of (dispatch host (PtyExit i c) s))) as Hs1
    by by apply dispatch_ready_state.
  assert (tasks (state_of (dispatch host (PtyExit i c) s))
          = alter (mark_exited host c) i (tasks s)) as Hts
    by (rewrite dispatch_tasks by apply Hs; done).
  split.
  - rewrite (dispatch_exit_kills _ _ _ _ Hs Hi), Hc.
    apply list_elem_of_fmap. exists r. split; [done|].
    apply elem_of_running_others. eauto.
  - rewrite (dispatch_exit_kills _ _ _ tj Hs1);
      [|by rewrite Hts, list_lookup_alter_ne].
    rewrite (dispatch_options (PtyExit i c) s), Hd.
    apply list_elem_of_fmap. exists r. split; [done|].
    apply elem_of_running_others. split; [done|]. exists tr.
    by rewrite Hts, list_lookup_alter_ne.
Qed.

(** C2, amended: a kill broadcast changes nothing in the viewer and
    signals exactly the tasks still marked running.  Handling the exit
    events of different tasks, those of killed tasks included, ends
    normally in every order and leaves the same viewer in every order.
    Every signal of such a run goes to a task that was running at the
    start, none goes to a task once its own exit event has been handled,
    and each exit event signals at most every other task once, so the
    signals are bounded by the number of exit events.  Signals are not
    remembered, though: a task that was signalled and whose exit event is
    still to come is signalled again by the next exit that triggers the
    broadcast, so which signals are issued depends on the order. *)
Theorem kill_propagation_converges (s : LogViewer) (xs ys : list (nat * Z)) :
  ready s ->
  NoDup xs.*1 ->
  Forall (fun x => x.1 < length (tasks s)) xs ->
  xs ≡ₚ ys ->
  (forall s', killAllTasks s' = (Normal tt, s', Kill <$> kill_targets (tasks s'))
     /\ forall p, p ∈ kill_targets (tasks s') <->
          exists j t, tasks s' !! j = Some t /\ isRunning t = true
                      /\ process t = Some p)
  /\ completion (run host (exit_events xs) s) = Normal tt
  /\ completion (run host (exit_events ys) s) = Normal tt
  /\ state_of (run host (exit_events xs) s)
     = state_of (run host (exit_events ys) s)
  /\ length (kills (effects (run host (exit_events xs) s)))
     <= length xs * (length (tasks s) - 1)
  /\ (forall p, p ∈ kills (effects (run host (exit_events xs) s)) ->
        exists r t, p = handle_of r /\ tasks s !! r = Some t
                    /\ isRunning t = true)
  /\ (forall pre x post, xs = pre ++ x :: post ->
        handle_of x.1 ∉
          kills (effects (run host (exit_events post)
                            (state_of (run host (exit_events (pre ++ [x])) s)))))
  /\ (forall i j r c d ti tj tr,
        i <> j -> r <> i -> r <> j ->
        tasks s !! i = Some ti -> tasks s !! j = Some tj ->
        tasks s !! r = Some tr -> isRunning tr = true ->
        kill_policy (options s) c = true ->
        kill_policy (options s) d = true ->
        handle_of r ∈ kills (effects (dispatch host (PtyExit i c) s))
        /\ handle_of r ∈
             kills (effects (dispatch host (PtyExit j d)
                               (state_of (dispatch host (PtyExit i c) s))))).
Proof.
  intros Hs Hnd Hxs Hp. split_and!.
  - intros s'. split; [apply killAllTasks_spec|]. apply elem_of_kill_targets.
  - by apply run_ready, exit_events_deliverable.
  - by apply run_ready, exit_events_deliverable.
  - rewrite !run_exit_events; [by apply exit_state_all_permutation|done| |done..].
    by rewrite <- Hp.
  - clear Hnd Hp ys. revert s Hs Hxs.
    induction xs as [|[i c] xs IH]; intros s Hs Hxs; [cbn; lia|].
    apply Forall_cons in Hxs as [Hi Hxs]. cbn in Hi.
    change (exit_events ((i, c) :: xs)) with (PtyExit i c :: exit_events xs).
    rewrite run_cons_effects, kills_app, length_app, dispatch_normal by done.
    pose proof (dispatch_exit_kills_bound i c s Hs Hi) as Hb.
    assert (length (tasks (state_of (dispatch host (PtyExit i c) s)))
            = length (tasks s)) as Hlen
      by by rewrite dispatch_tasks, tasks_after_length by apply Hs.
    specialize (IH (state_of (dispatch host (PtyExit i c) s))).
    rewrite Hlen in IH. cbn [length].
    etrans; [apply Nat.add_le_mono; [exact Hb|apply IH]|lia].
    + by apply dispatch_ready_state.
    + done.
  - intros p. by apply kills_go_to_running.
  - intros pre [i c] post -> Hin.
    apply Forall_app in Hxs as [Hpre Hxs].
    apply Forall_cons in Hxs as [Hi Hpost]. cbn in Hi.
    destruct (run_ready (exit_events (pre ++ [(i, c)])) s Hs
                (exit_events_deliverable _ _)) as (_ & Hs2 & Hts).
    assert (length (tasks (state_of
              (run host (exit_events (pre ++ [(i, c)])) s)))
            = length (tasks s)) as Hlen
      by by rewrite Hts, tasks_after_all_length.
    apply kills_go_to_running in Hin as (r & t & Hr & Ht & Hrun);
      [|done|by rewrite Hlen].
    apply handle_of_inj in Hr as <-. cbn [fst] in Ht.
    assert (exit_events (pre ++ [(i, c)]) = exit_events pre ++ [PtyExit i c])
      as Heq by (unfold exit_events; by rewrite fmap_app).
    rewrite Hts, Heq, tasks_after_all_snoc in Ht. cbn [tasks_after] in Ht.
    rewrite list_lookup_alter_eq in Ht.
    destruct (tasks_after_all host _ _ !! i); [|done].
    injection Ht as <-. done.
  - intros i j r c d ti tj tr. by apply second_broadcast_signals_again.
Qed.

End Facts.

(** * Concrete runs *)

Lemma viewer3_ready (k kf : bool) : ready (viewer3 k kf).
Proof. by apply new_LogViewer_ready. Qed.

Lemma viewer3_started (k kf : bool) : started (viewer3 k kf).
Proof. apply viewer3_ready. Qed.

(** Under [killOthers], task 1 of three exits with code 0: tasks 0 and 2
    are signalled. *)
Lemma exit_kill_policy_witness :
  ready (viewer3 true false)
  /\ tasks (viewer3 true false) !! 1 = Some (started_task 1 "b")
  /\ kills (effects (dispatch good_host (PtyExit 1 0) (viewer3 true false)))
     = [handle_of 0; handle_of 2].
Proof.
  split; [apply viewer3_ready|]. split; [reflexivity|].
  destruct (exit_kill_policy good_host (viewer3 true false) 1 0%Z
              (started_task 1 "b") (viewer3_ready _ _) eq_refl)
    as (_ & H & _).
  exact H.
Defined.

(** Three exit events in two orders leave the same viewer. *)
Lemma kill_propagation_converges_witness :
  let xs := [(1, 0%Z); (0, 0%Z); (2, 1%Z)] in
  let ys := [(2, 1%Z); (1, 0%Z); (0, 0%Z)] in
  let s := viewer3 true false in
  state_of (run good_host (exit_events xs) s)
  = state_of (run good_host (exit_events ys) s)
  /\ length (kills (effects (run good_host (exit_events xs) s))) <= 3 * (3 - 1)
  /\ handle_of 1 ∉
       kills (effects (run good_host (exit_events [(0, 0%Z); (2, 1%Z)])
                         (state_of (run good_host (exit_events [(1, 0%Z)]) s)))).
Proof.
  cbv zeta.
  destruct (kill_propagation_converges good_host (viewer3 true false)
              [(1, 0%Z); (0, 0%Z); (2, 1%Z)] [(2, 1%Z); (1, 0%Z); (0, 0%Z)]
              (viewer3_ready _ _))
    as (_ & _ & _ & H & Hb & _ & Hn & _).
  - cbn. apply (bool_decide_unpack _). vm_compute. exact I.
  - repeat constructor; apply Nat.ltb_lt; reflexivity.
  - symmetry. apply (Permutation_cons_append [(1, 0%Z); (0, 0%Z)] (2, 1%Z)).
  - split; [exact H|]. split; [exact Hb|].
    exact (Hn [] (1, 0%Z) [(0, 0%Z); (2, 1%Z)] eq_refl).
Defined.

(** C2, as the spec states it, fails: under [killOthers], task 2 is
    signalled when task 1 exits with code 0 and, its own exit event still
    to come, is signalled again when task 0 exits with code 0; in another
    order of the same exit events it is not signalled at all. *)
Lemma signals_depend_on_order :
  let s := viewer3 true false in
  let s1 := state_of (dispatch good_host (PtyExit 1 0) s) in
  handle_of 2 ∈ kills (effects (dispatch good_host (PtyExit 1 0) s))
  /\ isRunning <$> tasks s1 !! 2 = Some true
  /\ kills (effects (dispatch good_host (PtyExit 0 0) s1)) = [handle_of 2]
  /\ kills (effects (run good_host
                       (exit_events [(1, 0%Z); (0, 0%Z); (2, 1%Z)]) s))
     = [handle_of 0; handle_of 2; handle_of 2]
  /\ kills (effects (run good_host
                       (exit_events [(2, 1%Z); (1, 0%Z); (0, 0%Z)]) s))
     = [handle_of 0].
Proof.
  cbv zeta. split_and!; [|reflexivity..].
  change (handle_of 2 ∈ [handle_of 0; handle_of 2]). right. left.
Qed.

(** The second of three spawns fails. *)
Lemma spawn_failure_is_not_caught_witness :
  completion (new_LogViewer flaky_host (opts3 false false))
  = Throw "Error: spawn failed"
  /\ spinnerIntervals (state_of (new_LogViewer flaky_host (opts3 false false)))
     = [new_interval 0].
Proof.
  destruct (spawn_failure_is_not_caught flaky_host (opts3 false false) 1)
    as (H1 & _ & _ & H4).
  - apply Nat.ltb_lt. reflexivity.
  - reflexivity.
  - intros j Hj. destruct j; [reflexivity|lia].
  - split; [exact H1|exact H4].
Defined.

(** Two chunks arrive for task 1, then task 1 is selected. *)
Lemma log_pane_shows_joined_log_witness :
  let s := state_of (run good_host [PtyData 1 "x"; PtyData 1 "y"]
                       (viewer3 false false)) in
  tasks s !! 1 = Some (push_log "y" (push_log "x" (started_task 1 "b")))
  /\ logBox (state_of (handleTaskSelect 1 s)) = "x" +:+ newline +:+ "y".
Proof.
  cbv zeta. split; [reflexivity|].
  destruct (log_pane_shows_joined_log
              (state_of (run good_host [PtyData 1 "x"; PtyData 1 "y"]
                           (viewer3 false false)))
              1 (push_log "y" (push_log "x" (started_task 1 "b"))) eq_refl)
    as ((_ & H & _) & _).
  exact H.
Defined.

(** Task 0 exits with code 3. *)
Lemma exit_is_one_way_witness :
  started (viewer3 false false)
  /\ tasks (viewer3 false false) !! 0 = Some (started_task 0 "a")
  /\ exists t',
       tasks (state_of (dispatch good_host (PtyExit 0 3) (viewer3 false false)))
         !! 0 = Some t'
       /\ isRunning t' = false /\ exitCode t' = Some 3%Z
       /\ logs t' = [exit_marker good_host 3].
Proof.
  split; [apply viewer3_started|]. split; [reflexivity|].
  destruct (exit_is_one_way good_host (viewer3 false false) 0 3%Z
              (started_task 0 "a") (viewer3_started _ _) eq_refl)
    as ((t' & H1 & H2 & H3 & H4 & _) & _).
  exists t'. repeat split; assumption.
Defined.

(** Chunks of two tasks, a tick, a selection and an exit. *)
Lemma chunks_logged_in_order_witness :
  let evs := [PtyData 0 "x"; PtyData 1 "y"; TimerTick 0; PtyData 0 "z";
              SidebarSelect 2; PtyExit 1 0] in
  completion (run good_host evs (viewer3 false false)) = Normal tt
  /\ exists t',
       tasks (state_of (run good_host evs (viewer3 false false))) !! 0 = Some t'
       /\ logs t' = ["x"; "z"].
Proof.
  cbv zeta.
  destruct (chunks_logged_in_order good_host (viewer3 false false)
              [PtyData 0 "x"; PtyData 1 "y"; TimerTick 0; PtyData 0 "z";
               SidebarSelect 2; PtyExit 1 0]
              0 (started_task 0 "a") (viewer3_ready _ _))
    as (Hn & t' & Ht' & _ & Hc).
  - repeat constructor; cbn; lia.
  - reflexivity.
  - split; [exact Hn|]. exists t'. split; [exact Ht'|].
    rewrite Hc; [reflexivity|]. intros c Hin.
    repeat (apply elem_of_cons in Hin as [Hin|Hin]; [discriminate Hin|]).
    by apply elem_of_nil in Hin.
Defined.

(** The first tick of the timer of task 0. *)
Lemma spinner_advances_while_running_witness :
  spinnerIntervals (viewer3 false false) !! 0 = Some (new_interval 0)
  /\ spinnerIntervals
       (state_of (dispatch good_host (TimerTick 0) (viewer3 false false))) !! 0
     = Some {| owner := 0; spinnerIndex := 1; cleared := false |}.
Proof.
  split; [reflexivity|].
  destruct (spinner_advances_while_running good_host (viewer3 false false) 0
              (new_interval 0) (started_task 0 "a")
              eq_refl eq_refl eq_refl)
    as (_ & H & _).
  - apply Nat.ltb_lt. reflexivity.
  - exact (H eq_refl).
Defined.

(** Three commands. *)
Lemma initial_selection_is_first_task_witness :
  commands (opts3 false false) <> []
  /\ currentTaskIndex (viewer3 false false) = 0%Z
  /\ logBox (viewer3 false false) = "".
Proof.
  assert (commands (opts3 false false) <> []) as Hne by discriminate.
  split; [exact Hne|].
  destruct (initial_selection_is_first_task good_host (opts3 false false) Hne)
    as (_ & _ & H1 & H2 & _).
  split; [exact H1|exact H2].
Defined.

(** C3, as the spec states it, fails: the second of three spawns fails,
    and the task is not moved to an exited state with an exit code and a
    line in its log; the constructor throws. *)
Lemma spawn_failure_aborts_the_run :
  let r := new_LogViewer flaky_host (opts3 false false) in
  completion r <> Normal tt
  /\ ~ exists t, tasks (state_of r) !! 1 = Some t
         /\ isRunning t = false /\ is_Some (exitCode t)
         /\ length (logs t) = 1.
Proof.
  cbv zeta. split; [discriminate|].
  intros (t & Ht & Hr & _). vm_compute in Ht. injection Ht as <-.
  discriminate Hr.
Qed.

(** C4, as the spec states it, fails: two chunks "a" and "b" of the
    selected task are shown with a newline between them. *)
Lemma log_pane_inserts_newlines :
  let s := state_of (run good_host [PtyData 0 "a"; PtyData 0 "b"]
                       (viewer3 false false)) in
  logs <$> tasks s !! 0 = Some ["a"; "b"]
  /\ logBox s = "a" +:+ newline +:+ "b"
  /\ logBox s <> verbatim_concatenation ["a"; "b"].
Proof. cbv zeta. split; [|split]; [reflexivity..|discriminate]. Qed.

(** C5, as the spec states it, fails: with three tasks, the indices 5
    and -1 are stored as they are. *)
Lemma selection_is_not_clamped :
  let n := Z.of_nat (length (tasks (viewer3 false false))) in
  ~ (0 <= currentTaskIndex
            (state_of (handleTaskSelect 5 (viewer3 false false))) < n)%Z
  /\ ~ (0 <= currentTaskIndex
              (state_of (handleTaskSelect (-1) (viewer3 false false))) < n)%Z.
Proof. cbv zeta. split; vm_compute; intros [H1 H2]; congruence. Qed.

(** C6, as the spec states it, fails: a chunk delivered after the exit
    event of task 0 is pushed on its log all the same. *)
Lemma log_grows_after_exit :
  let s1 := state_of (dispatch good_host (PtyExit 0 0) (viewer3 false false)) in
  let s2 := state_of (dispatch good_host (PtyData 0 "late") s1) in
  isRunning <$> tasks s1 !! 0 = Some false
  /\ isRunning <$> tasks s2 !! 0 = Some false
  /\ logs <$> tasks s1 !! 0 = Some [exit_marker good_host 0]
  /\ logs <$> tasks s2 !! 0 = Some [exit_marker good_host 0; "late"]
  /\ logs <$> tasks s2 !! 0 <> logs <$> tasks s1 !! 0.
Proof. cbv zeta. split_and!; [reflexivity..|discriminate]. Qed.

(** * Concrete runs for the further properties *)

Lemma viewer3_in_sync (k kf : bool) : in_sync (viewer3 k kf).
Proof. exists (started_task 0 "a"). by split. Qed.

Lemma viewer3_all_running (k kf : bool) (i : nat) (t : Task) :
  tasks (viewer3 k kf) !! i = Some t -> isRunning t = true.
Proof.
  destruct i as [|[|[|i]]]; cbn; intros H; try discriminate H;
    by injection H as <-.
Qed.

Lemma viewer3_frames_in_range (k kf : bool) : frames_in_range (viewer3 k kf).
Proof. repeat constructor; cbn; lia. Qed.

Lemma viewer3_running_labelled (k kf : bool) : running_labelled (viewer3 k kf).
Proof.
  intros i t Ht _. exists "⟳". split; [by left|].
  destruct i as [|[|[|i]]]; cbn in Ht |- *; try discriminate Ht;
    by injection Ht as <-.
Qed.

(** Output for two tasks, a selection and an exit. *)
Lemma log_pane_stays_in_sync_witness :
  let evs := [PtyData 0 "x"; PtyData 1 "y"; SidebarSelect 1; PtyData 1 "z";
              PtyExit 0 2] in
  ready (viewer3 false false)
  /\ logBox (state_of (run good_host evs (viewer3 false false)))
     = "y" +:+ newline +:+ "z".
Proof.
  cbv zeta. split; [apply viewer3_ready|].
  destruct (log_pane_stays_in_sync good_host (viewer3 false false)
              [PtyData 0 "x"; PtyData 1 "y"; SidebarSelect 1; PtyData 1 "z";
               PtyExit 0 2]
              (viewer3_ready _ _)) as (t & Ht & Hl).
  - repeat constructor; cbn; lia.
  - apply viewer3_in_sync.
  - vm_compute in Ht. injection Ht as <-. exact Hl.
Defined.

(** Task 2, not selected, fails with code 1. *)
Lemma exit_sets_status_glyph_witness :
  tasks (viewer3 false false) !! 2 = Some (started_task 2 "c")
  /\ sidebar (state_of (dispatch good_host (PtyExit 2 1) (viewer3 false false)))
     = ["⟳ a"; "⟳ b"; "✗ c"].
Proof.
  split; [reflexivity|].
  destruct (exit_sets_status_glyph good_host (viewer3 false false) 2 1%Z
              (started_task 2 "c") (viewer3_ready _ _) eq_refl)
    as (H1 & H2 & _).
  apply list_eq. intros j.
  destruct (decide (j = 2)) as [->|Hne]; [exact H1|].
  rewrite (H2 j Hne). by destruct j as [|[|[|j]]].
Defined.

(** Task 1 exits, then its timer and that of task 0 tick. *)
Lemma exited_labels_are_final_witness :
  let evs := [PtyExit 1 0; TimerTick 1; TimerTick 0; TimerTick 1] in
  sidebar (state_of (run good_host evs (viewer3 false false))) !! 1
  = Some (getTaskLabel good_host (mark_exited good_host 0 (started_task 1 "b"))).
Proof.
  cbv zeta.
  apply (exited_labels_are_final good_host (viewer3 false false)
           [PtyExit 1 0; TimerTick 1; TimerTick 0; TimerTick 1]
           (viewer3_ready _ _)).
  - repeat constructor; cbn; lia.
  - intros i t Ht Hr. by rewrite (viewer3_all_running _ _ _ _ Ht) in Hr.
  - reflexivity.
  - reflexivity.
Defined.

(** Twelve ticks of the timer of task 2. *)
Lemma spinner_frame_always_defined_witness :
  frames_in_range (viewer3 false false)
  /\ frames_in_range
       (state_of (run good_host (replicate 12 (TimerTick 2))
                    (viewer3 false false))).
Proof.
  split; [apply viewer3_frames_in_range|].
  apply (spinner_frame_always_defined good_host (viewer3 false false)
           (replicate 12 (TimerTick 2)) (viewer3_frames_in_range _ _)).
Defined.

(** Ten ticks of the timer of task 0 bring its frame back. *)
Lemma spinner_cycles_witness :
  spinnerIntervals (viewer3 false false) !! 0 = Some (new_interval 0)
  /\ spinnerIntervals
       (state_of (run good_host (replicate 10 (TimerTick 0))
                    (viewer3 false false))) !! 0
     = Some (new_interval 0).
Proof.
  split; [reflexivity|].
  destruct (spinner_cycles good_host 10 0 (viewer3 false false)
              (new_interval 0) (started_task 0 "a") (viewer3_ready _ _)
              eq_refl eq_refl) as (_ & _ & _ & _ & _ & H).
  - cbn. lia.
  - reflexivity.
  - reflexivity.
  - exact (H eq_refl).
Defined.

(** Two selections among other events. *)
Lemma selection_is_last_selected_witness :
  let evs := [SidebarSelect 2; PtyData 0 "x"; SidebarSelect 1; TimerTick 0;
              PtyExit 2 0] in
  currentTaskIndex (state_of (run good_host evs (viewer3 false false))) = 1%Z.
Proof.
  cbv zeta.
  rewrite (selection_is_last_selected good_host (viewer3 false false)).
  - reflexivity.
  - apply viewer3_ready.
  - repeat constructor; cbn; lia.
Defined.

(** Task 1 exits with code 0 under [killOthers]: task 2 is signalled and
    stays as it was. *)
Lemma tasks_change_only_by_own_events_witness :
  started (viewer3 true false)
  /\ kills (effects (run good_host [PtyExit 1 0; PtyData 0 "x"]
                       (viewer3 true false)))
     = [handle_of 0; handle_of 2]
  /\ tasks (state_of (run good_host [PtyExit 1 0; PtyData 0 "x"]
                        (viewer3 true false))) !! 2
     = Some (started_task 2 "c").
Proof.
  split; [apply viewer3_started|]. split; [reflexivity|].
  destruct (tasks_change_only_by_own_events good_host (viewer3 true false)
              [PtyExit 1 0; PtyData 0 "x"] (viewer3_started _ _))
    as (_ & _ & H).
  rewrite (H 2); [reflexivity|].
  repeat constructor; cbn; lia.
Defined.

(** Without flags, a failing and a succeeding exit signal nobody. *)
Lemma no_flag_no_kill_witness :
  kills (effects (run good_host [PtyExit 1 1; PtyData 0 "x"; PtyExit 0 0]
                    (viewer3 false false))) = [].
Proof.
  apply (no_flag_no_kill good_host (viewer3 false false)
           [PtyExit 1 1; PtyData 0 "x"; PtyExit 0 0] (viewer3_ready _ _)).
  - repeat constructor.
  - reflexivity.
  - reflexivity.
Defined.

(** Three commands where every spawn succeeds. *)
Lemma constructor_builds_registry_witness :
  commands (opts3 true false) <> []
  /\ tasks (viewer3 true false)
     = [started_task 0 "a"; started_task 1 "b"; started_task 2 "c"]
  /\ effects (new_LogViewer good_host (opts3 true false))
     = [SetContent ""; Render; Render;
        PtyWrite (handle_of 0) ("a" +:+ carriage_return);
        PtyWrite (handle_of 1) ("b" +:+ carriage_return);
        PtyWrite (handle_of 2) ("c" +:+ carriage_return)].
Proof.
  assert (commands (opts3 true false) <> []) as Hne by discriminate.
  split; [exact Hne|]. unfold viewer3.
  rewrite (constructor_builds_registry good_host (opts3 true false) Hne).
  - split; reflexivity.
  - reflexivity.
Defined.

(** Under [killOthers], tasks 1 and 0 exit with code 0 while task 2 is
    running: task 2 is signalled twice. *)
Lemma pending_task_is_signalled_again_witness :
  ready (viewer3 true false)
  /\ kills (effects (run good_host [PtyExit 1 0; PtyExit 0 0]
                       (viewer3 true false)))
     = [handle_of 0; handle_of 2; handle_of 2]
  /\ handle_of 2 ∈
       kills (effects (dispatch good_host (PtyExit 0 0)
                         (state_of (dispatch good_host (PtyExit 1 0)
                                      (viewer3 true false))))).
Proof.
  split; [apply viewer3_ready|]. split; [reflexivity|].
  apply (pending_task_is_signalled_again good_host (viewer3 true false)
           1 0 2 0%Z 0%Z (started_task 1 "b") (started_task 0 "a")
           (started_task 2 "c") (viewer3_ready _ _));
    (reflexivity || lia).
Defined.

(** Ticks and an exit leave every running task its title. *)
Lemma running_labels_keep_titles_witness :
  let evs := [TimerTick 0; TimerTick 0; PtyExit 1 0; TimerTick 2] in
  exists glyph,
    glyph ∈ "⟳" :: spinnerFrames
    /\ sidebar (state_of (run good_host evs (viewer3 false false))) !! 0
       = Some (glyph +:+ " " +:+ "a").
Proof.
  cbv zeta.
  apply (running_labels_keep_titles good_host (viewer3 false false)
           [TimerTick 0; TimerTick 0; PtyExit 1 0; TimerTick 2]
           (viewer3_ready _ _)
           ltac:(repeat constructor; cbn; lia)
           (viewer3_frames_in_range _ _) (viewer3_running_labelled _ _)
           0 (started_task 0 "a")).
  - reflexivity.
  - reflexivity.
Defined.
